(** * Cursory: a shallow embedding of [src/cursory.js]

    The [Cursory] object is a record of its seven fields; the browser
    collaborators it talks to (the children of [document.body], the style
    of every element it created, the [mousemove] listeners of [window] and
    the pending [requestAnimationFrame] callbacks) form a second record.
    Pixel coordinates and the numeric options are JavaScript numbers,
    modelled as exact rationals [Q]; [trailLength] is an integer [Z].
    Where rounding matters (the distance of a trail to the pointer after
    a frame), the easing loop of [animate] is also modelled in IEEE 754
    binary64 arithmetic, the arithmetic of JavaScript numbers.
    A JavaScript exception is the [Throw] case of [result], carrying the
    state at the point where it was raised (mutations done before it stay). *)

From Stdlib Require Import ZArith QArith Lqa String List Bool Lia.
Import ListNotations.

Open Scope Q_scope.

(** ** Configuration objects *)

(** A configuration object restricted to its recognised keys;
    [None] is a key that is absent from the object. *)
Record options := mkOptions {
  trailColor : option string;
  trailLength : option Z;
  trailSpeed : option Q;
  cursorSize : option Q;
  opacity : option Q;
  followSpeed : option Q }.

Definition empty_options : options := mkOptions None None None None None None.

(** One key of the shallow merge [{ ...a, ...b }]: [b]'s own key wins. *)
Definition spread_key {A : Type} (a b : option A) : option A :=
  match b with Some v => Some v | None => a end.

(** [{ ...a, ...b }] *)
Definition spread (a b : options) : options :=
  mkOptions (spread_key (trailColor a) (trailColor b))
            (spread_key (trailLength a) (trailLength b))
            (spread_key (trailSpeed a) (trailSpeed b))
            (spread_key (cursorSize a) (cursorSize b))
            (spread_key (opacity a) (opacity b))
            (spread_key (followSpeed a) (followSpeed b)).

(** [defaultOptions] of [init] (0.2 and 0.7 as the rationals they denote). *)
Definition defaultOptions : options :=
  mkOptions (Some "#00ffea"%string) (Some 10%Z) (Some 0.5) (Some 10)
            (Some 0.7) (Some 0.2).

(** ** Browser side *)

(** The inline style of a [div]; [None] is a property never written.
    [width]/[height] hold the number written before ["px"], [transform]
    the pair written into [translate(..px, ..px)]. *)
Record style := mkStyle {
  width : option Q;
  height : option Q;
  backgroundColor : option string;
  style_opacity : option Q;
  position : option string;
  pointerEvents : option string;
  borderRadius : option string;
  transform : option (Q * Q) }.

Definition blank_style : style :=
  mkStyle None None None None None None None None.

(** One entry of [this.trails]: [{ element: trail, x: .., y: .. }]. *)
Record trail := mkTrail { element : nat; x : Q; y : Q }.

(** The fields of the [Cursory] object. [maxTrails] is a number or
    [undefined] ([None]); [animationFrame] a frame handle or [null]. *)
Record cursory := mkCursory {
  config : options;
  trails : list trail;
  maxTrails : option Z;
  animationFrame : option nat;
  isInitialized : bool;
  mouseX : Q;
  mouseY : Q }.

(** The host: elements are identified by the number [createElement]
    allocated them; functions passed to [addEventListener] by the number
    [Function.prototype.bind] allocated them (every [bind] call makes a new
    function object); frame callbacks by their [requestAnimationFrame]
    handle. *)
Record host := mkHost {
  body : list nat;
  styles : nat -> style;
  next_node : nat;
  listeners : list nat;
  next_fn : nat;
  frame_queue : list nat;
  next_frame : nat }.

Record state := mkState { obj : cursory; env : host }.

Inductive exn := TypeError | NotFoundError.

Inductive result (A : Type) :=
| Ok (a : A)
| Throw (e : exn) (a : A).
Arguments Ok {A} a.
Arguments Throw {A} e a.

Definition state_of {A : Type} (r : result A) : A :=
  match r with Ok a => a | Throw _ a => a end.

(** *** Field updates *)

Definition set_obj (s : state) (o : cursory) : state := mkState o (env s).
Definition set_env (s : state) (h : host) : state := mkState (obj s) h.

Definition with_config (o : cursory) (c : options) : cursory :=
  mkCursory c (trails o) (maxTrails o) (animationFrame o) (isInitialized o)
            (mouseX o) (mouseY o).
Definition with_trails (o : cursory) (l : list trail) : cursory :=
  mkCursory (config o) l (maxTrails o) (animationFrame o) (isInitialized o)
            (mouseX o) (mouseY o).
Definition with_maxTrails (o : cursory) (m : option Z) : cursory :=
  mkCursory (config o) (trails o) m (animationFrame o) (isInitialized o)
            (mouseX o) (mouseY o).
Definition with_animationFrame (o : cursory) (h : option nat) : cursory :=
  mkCursory (config o) (trails o) (maxTrails o) h (isInitialized o)
            (mouseX o) (mouseY o).
Definition with_isInitialized (o : cursory) (b : bool) : cursory :=
  mkCursory (config o) (trails o) (maxTrails o) (animationFrame o) b
            (mouseX o) (mouseY o).
Definition with_mouse (o : cursory) (mx my : Q) : cursory :=
  mkCursory (config o) (trails o) (maxTrails o) (animationFrame o)
            (isInitialized o) mx my.

Definition with_body (h : host) (b : list nat) : host :=
  mkHost b (styles h) (next_node h) (listeners h) (next_fn h)
         (frame_queue h) (next_frame h).
Definition with_styles (h : host) (st : nat -> style) : host :=
  mkHost (body h) st (next_node h) (listeners h) (next_fn h)
         (frame_queue h) (next_frame h).
Definition with_listeners (h : host) (l : list nat) (nf : nat) : host :=
  mkHost (body h) (styles h) (next_node h) l nf (frame_queue h) (next_frame h).
Definition with_frames (h : host) (q : list nat) (nf : nat) : host :=
  mkHost (body h) (styles h) (next_node h) (listeners h) (next_fn h) q nf.

(** *** DOM primitives *)

(** [element.style] after assignments: [v] is the element's style as the
    code assigns it. A browser drops an assignment whose value is not valid
    CSS (a negative width, an unknown colour), so for [width], [height],
    [backgroundColor] and [opacity] this is the value last assigned, not
    necessarily the one in effect. *)
Definition set_style (st : nat -> style) (e : nat) (v : style) : nat -> style :=
  fun e' => if Nat.eqb e' e then v else st e'.

Fixpoint remove_first (e : nat) (l : list nat) : list nat :=
  match l with
  | [] => []
  | e' :: l' => if Nat.eqb e' e then l' else e' :: remove_first e l'
  end.

(** [parent.appendChild(e)]: a node already in [parent] moves to the end. *)
Definition appendChild (b : list nat) (e : nat) : list nat :=
  remove_first e b ++ [e].

(** [parent.removeChild(e)]: a [NotFoundError] when [e] is not a child. *)
Definition removeChild (b : list nat) (e : nat) : option (list nat) :=
  if existsb (Nat.eqb e) b then Some (remove_first e b) else None.

(** [window.addEventListener('mousemove', f)]: a listener already
    registered is not added twice. *)
Definition addEventListener (l : list nat) (f : nat) : list nat :=
  if existsb (Nat.eqb f) l then l else l ++ [f].

(** [window.removeEventListener('mousemove', f)]: removes [f] when it is
    registered, does nothing otherwise. *)
Definition removeEventListener (l : list nat) (f : nat) : list nat :=
  remove_first f l.

(** [Array.prototype.pop]: the last entry, [undefined] on an empty array. *)
Definition pop {A : Type} (l : list A) : option (list A * A) :=
  match rev l with
  | [] => None
  | a :: r => Some (rev r, a)
  end.

(** ** The methods of [Cursory] *)

(** The style a new trail element gets (lines 41-49 and 118-126). *)
Definition trail_style (c : options) (mx my : Q) : style :=
  mkStyle (cursorSize c) (cursorSize c) (trailColor c) (opacity c)
          (Some "fixed"%string) (Some "none"%string) (Some "50%"%string)
          (Some (mx, my)).

(** One iteration of the trail-creating loop of [init] (lines 40-51),
    repeated verbatim in [updateConfig] (lines 117-128). *)
Definition create_trail (s : state) : state :=
  let o := obj s in
  let h := env s in
  let e := next_node h in
  mkState (with_trails o (trails o ++ [mkTrail e (mouseX o) (mouseY o)]))
          (mkHost (appendChild (body h) e)
                  (set_style (styles h) e (trail_style (config o) (mouseX o) (mouseY o)))
                  (S e) (listeners h) (next_fn h) (frame_queue h) (next_frame h)).

Fixpoint create_trails (n : nat) (s : state) : state :=
  match n with
  | O => s
  | S n' => create_trails n' (create_trail s)
  end.

(** Iterations of [for (let i = 0; i < n; i++)]: none when [n] is
    [undefined] or not positive. *)
Definition loop_count (n : option Z) : nat :=
  match n with Some k => Z.to_nat k | None => O end.

(** The easing step of [animate] for one trail (lines 77-83). *)
Definition ease (mx my fs : Q) (t : trail) : trail :=
  let dx := mx - x t in
  let dy := my - y t in
  mkTrail (element t) (x t + dx * fs) (y t + dy * fs).

Definition with_transform (st : style) (p : Q * Q) : style :=
  mkStyle (width st) (height st) (backgroundColor st) (style_opacity st)
          (position st) (pointerEvents st) (borderRadius st) (Some p).

(** [trail.element.style.transform = translate(..)] for every trail. *)
Definition write_transforms (ts : list trail) (st : nat -> style) : nat -> style :=
  fold_left (fun st t => set_style st (element t) (with_transform (st (element t)) (x t, y t)))
            ts st.

(** [animate] (lines 74-91). [followSpeed] is always present once [init]
    has merged [defaultOptions] into [config], and [animate] only runs from
    [init] and from the frames it schedules; the [None] branch (where the
    JavaScript would compute [NaN]) is not reached. *)
Definition animate (s : state) : state :=
  let o := obj s in
  let h := env s in
  let ts := match followSpeed (config o) with
            | Some fs => map (ease (mouseX o) (mouseY o) fs) (trails o)
            | None => trails o
            end in
  let hnd := next_frame h in
  mkState (with_animationFrame (with_trails o ts) (Some hnd))
          (mkHost (body h) (write_transforms ts (styles h)) (next_node h)
                  (listeners h) (next_fn h) (frame_queue h ++ [hnd]) (S hnd)).

(** [init] (lines 23-60). *)
Definition init (s : state) (c : options) : state :=
  let cfg := spread defaultOptions c in
  let s1 := set_obj s (with_maxTrails (with_config (obj s) cfg) (trailLength cfg)) in
  let s2 := create_trails (loop_count (maxTrails (obj s1))) s1 in
  let h := env s2 in
  let f := next_fn h in
  let s3 := set_env s2 (with_listeners h (addEventListener (listeners h) f) (S f)) in
  let s4 := animate s3 in
  set_obj s4 (with_isInitialized (obj s4) true).

(** [trackMouse] (lines 66-69). *)
Definition trackMouse (s : state) (clientX clientY : Q) : state :=
  set_obj s (with_mouse (obj s) clientX clientY).

Definition with_look (st : style) (c : options) : style :=
  mkStyle (cursorSize c) (cursorSize c) (trailColor c) (opacity c)
          (position st) (pointerEvents st) (borderRadius st) (transform st).

(** The [forEach] of [updateConfig] (lines 104-109). *)
Definition restyle (s : state) : state :=
  let c := config (obj s) in
  let st := fold_left (fun st t => set_style st (element t) (with_look (st (element t)) c))
                      (trails (obj s)) (styles (env s)) in
  set_env s (with_styles (env s) st).

(** The removing loop of [updateConfig] (lines 133-136): [pop] of an
    empty array gives [undefined], whose [.element] is a [TypeError]. *)
Fixpoint remove_trails (n : nat) (s : state) : result state :=
  match n with
  | O => Ok s
  | S n' =>
      match pop (trails (obj s)) with
      | None => Throw TypeError s
      | Some (rest, t) =>
          let s1 := set_obj s (with_trails (obj s) rest) in
          match removeChild (body (env s1)) (element t) with
          | None => Throw NotFoundError s1
          | Some b => remove_trails n' (set_env s1 (with_body (env s1) b))
          end
      end
  end.

(** Lines 112-139. [newConfig.trailLength && newConfig.trailLength !==
    this.maxTrails] holds for a present, non-zero [trailLength] different
    from [maxTrails]. *)
Definition adjust_trails (s : state) (newConfig : options) : result state :=
  match trailLength newConfig with
  | None => Ok s
  | Some k =>
      let differs := match maxTrails (obj s) with
                     | Some m => negb (Z.eqb k m)
                     | None => true
                     end in
      if negb (Z.eqb k 0) && differs then
        let r := match maxTrails (obj s) with
                 | Some m =>
                     if Z.gtb k m then Ok (create_trails (Z.to_nat (k - m)) s)
                     else remove_trails (Z.to_nat (m - k)) s
                 | None =>
                     (* [k > undefined] is false; [undefined - k] is [NaN]
                        and the removing loop runs no iteration *)
                     remove_trails O s
                 end in
        match r with
        | Ok s' => Ok (set_obj s' (with_maxTrails (obj s') (trailLength (config (obj s')))))
        | Throw e s' => Throw e s'
        end
      else Ok s
  end.

(** [updateConfig] (lines 97-140). *)
Definition updateConfig (s : state) (newConfig : options) : result state :=
  if negb (isInitialized (obj s)) then Ok s
  else
    let s1 := set_obj s (with_config (obj s) (spread (config (obj s)) newConfig)) in
    adjust_trails (restyle s1) newConfig.

(** The [forEach] of [destroy] (lines 149-151). *)
Fixpoint remove_elements (ts : list trail) (b : list nat) : result (list nat) :=
  match ts with
  | [] => Ok b
  | t :: ts' =>
      match removeChild b (element t) with
      | None => Throw NotFoundError b
      | Some b' => remove_elements ts' b'
      end
  end.

(** [cancelAnimationFrame(h)]; [null] converts to handle [0], which
    [requestAnimationFrame] never returns. *)
Definition cancelAnimationFrame (q : list nat) (h : option nat) : list nat :=
  match h with Some n => remove_first n q | None => q end.

(** [destroy] (lines 145-161). The listener passed to
    [removeEventListener] is [this.trackMouse.bind(this)], a function
    object made by this call. *)
Definition destroy (s : state) : result state :=
  if negb (isInitialized (obj s)) then Ok s
  else
    let o := obj s in
    let h := env s in
    match remove_elements (trails o) (body h) with
    | Throw e b => Throw e (set_env s (with_body h b))
    | Ok b =>
        let f := next_fn h in
        Ok (mkState (mkCursory (config o) [] (maxTrails o) None false (mouseX o) (mouseY o))
                    (mkHost b (styles h) (next_node h)
                            (removeEventListener (listeners h) f) (S f)
                            (cancelAnimationFrame (frame_queue h) (animationFrame o))
                            (next_frame h)))
    end.

(** ** Events *)

(** A [mousemove] runs every registered listener; the only listeners are
    the bound [trackMouse] functions [init] registered. *)
Definition dispatch_mousemove (s : state) (clientX clientY : Q) : state :=
  fold_left (fun s _ => trackMouse s clientX clientY) (listeners (env s)) s.

(** A display frame runs the callbacks pending at its start. *)
Definition frame (s : state) : state :=
  let q := frame_queue (env s) in
  fold_left (fun s _ => animate s) q
            (set_env s (with_frames (env s) [] (next_frame (env s)))).

Inductive event :=
| Init (c : options)
| MouseMove (clientX clientY : Q)
| Frame
| UpdateConfig (c : options)
| Destroy.

(** One event; an exception ends the handler, keeping its mutations. *)
Definition step (s : state) (ev : event) : state :=
  match ev with
  | Init c => init s c
  | MouseMove cx cy => dispatch_mousemove s cx cy
  | Frame => frame s
  | UpdateConfig c => state_of (updateConfig s c)
  | Destroy => state_of (destroy s)
  end.

Definition run (s : state) (evs : list event) : state := fold_left step evs s.

(** The state when the script has run on a page whose [body] already holds
    the nodes [page]. *)
Definition initial_state (page : list nat) : state :=
  mkState (mkCursory empty_options [] (Some 10%Z) None false 0 0)
          (mkHost page (fun _ => blank_style) (S (list_max page)) [] 0 [] 1).

(** ** Definitions used by the properties *)

(** *** [animate] in binary64 arithmetic

    A binary64 number of magnitude below [2^1024] is an integer multiple
    of [2^-1074]; the integer [n : Z] stands for the number [n * 2^-1074].
    [is_double n] says that [n] is representable: a significand of at most
    53 bits times a power of two. Subnormals are included, infinities and
    [NaN] are not: the properties below bound the magnitudes so that no
    operation overflows. *)
Definition is_double (n : Z) : Prop :=
  exists m e, (0 <= e)%Z /\ (Z.abs m <= 2 ^ 53)%Z /\ n = (m * 2 ^ e)%Z.

(** [M / 2^s] rounded to the nearest integer, ties to even. *)
Definition rne_shift (M s : Z) : Z :=
  (let q := M / 2 ^ s in
   let r := M mod 2 ^ s in
   if 2 * r <? 2 ^ s then q
   else if 2 ^ s <? 2 * r then q + 1
   else if Z.even q then q else q + 1)%Z.

(** [M * 2^-k] rounded to binary64, for [M >= 0], in units of [2^-1074]:
    keep the 53 leading bits of [M], and no bit below [2^-1074]. *)
Definition round_pos (M k : Z) : Z :=
  (let s := Z.max (Z.log2 M + 1 - 53) k in
   rne_shift M s * 2 ^ (s - k))%Z.

(** Rounding is symmetric about zero. *)
Definition round (M k : Z) : Z :=
  (if M <? 0 then - round_pos (- M) k else round_pos M k)%Z.

(** The JavaScript operators [+], [-] and [*]: the exact result, rounded.
    The product of two numbers in units of [2^-1074] is in units of
    [2^-2148], hence the shift by 1074. *)
Definition add64 (a b : Z) : Z := round (a + b) 0.
Definition sub64 (a b : Z) : Z := round (a - b) 0.
Definition mul64 (a b : Z) : Z := round (a * b) 1074.

(** A trail with binary64 coordinates. *)
Record trail64 := mkTrail64 { element64 : nat; x64 : Z; y64 : Z }.

(** The body of the loop of [animate] (lines 77-83): [dx = mouseX - trail.x],
    [trail.x += dx * followSpeed], and the same for [y]. *)
Definition ease64 (mx my fs : Z) (t : trail64) : trail64 :=
  let dx := sub64 mx (x64 t) in
  let dy := sub64 my (y64 t) in
  mkTrail64 (element64 t) (add64 (x64 t) (mul64 dx fs)) (add64 (y64 t) (mul64 dy fs)).

(** The loop over [this.trails] of [animate] (lines 76-87). *)
Definition animate64_trails (mx my fs : Z) (ts : list trail64) : list trail64 :=
  map (ease64 mx my fs) ts.

(** Squared Euclidean distance from a trail to the pointer (exact); the
    distance is its square root, so both order trails alike. *)
Definition dist2_64 (mx my : Z) (t : trail64) : Z :=
  ((mx - x64 t) * (mx - x64 t) + (my - y64 t) * (my - y64 t))%Z.

(** Magnitude at most [2^1022]: sums and differences of two such numbers
    stay below the largest finite binary64 number. *)
Definition small64 (n : Z) : Prop := (Z.abs n <= 2 ^ 2096)%Z.

(** [destroy(); destroy();] in one script: an exception of the first call
    skips the second. *)
Definition destroy_twice (s : state) : result state :=
  match destroy s with
  | Ok s' => destroy s'
  | Throw e s' => Throw e s'
  end.

Definition map_result {A B : Type} (f : A -> B) (r : result A) : result B :=
  match r with Ok a => Ok (f a) | Throw e a => Throw e (f a) end.

(** The same configuration object with its [trailSpeed] key replaced. *)
Definition with_trailSpeed (c : options) (v : option Q) : options :=
  mkOptions (trailColor c) (trailLength c) v (cursorSize c) (opacity c)
            (followSpeed c).

(** Forgets the [trailSpeed] key of [Cursory.config]. *)
Definition erase (s : state) : state :=
  set_obj s (with_config (obj s) (with_trailSpeed (config (obj s)) None)).

(** The part of [init] after the merge of the configuration. *)
Definition init_after_merge (s1 : state) : state :=
  let s2 := create_trails (loop_count (maxTrails (obj s1))) s1 in
  let h := env s2 in
  let f := next_fn h in
  let s3 := set_env s2 (with_listeners h (addEventListener (listeners h) f) (S f)) in
  let s4 := animate s3 in
  set_obj s4 (with_isInitialized (obj s4) true).

Definition merged (s : state) (c : options) : state :=
  let cfg := spread defaultOptions c in
  set_obj s (with_maxTrails (with_config (obj s) cfg) (trailLength cfg)).

(** [trailLength], when supplied, is a non-negative integer. *)
Definition length_ok (c : options) : Prop :=
  match trailLength c with Some k => (0 <= k)%Z | None => True end.

(** The calls the invariant of [maxTrails] is stated for: [init] only on a
    controller that is not initialized. *)
Definition event_ok (s : state) (ev : event) : Prop :=
  match ev with
  | Init c => isInitialized (obj s) = false /\ length_ok c
  | UpdateConfig c => length_ok c
  | _ => True
  end.

Inductive reachable : state -> Prop :=
| reach_start (page : list nat) : reachable (initial_state page)
| reach_step (s : state) (ev : event) :
    reachable s -> event_ok s ev -> reachable (step s ev).

Definition elems (s : state) : list nat := map element (trails (obj s)).

(** The trail elements are distinct children of [body]; every child of
    [body] was allocated before [next_node]. *)
Definition dom_ok (s : state) : Prop :=
  NoDup (elems s) /\
  Forall (fun e => In e (body (env s))) (elems s) /\
  Forall (fun e => e < next_node (env s))%nat (body (env s)).

Definition inv (s : state) : Prop :=
  (isInitialized (obj s) = false -> elems s = []) /\
  (isInitialized (obj s) = true ->
     maxTrails (obj s) = Some (Z.of_nat (List.length (elems s)))) /\
  dom_ok s.

(** Two states agreeing on everything [inv] reads. *)
Definition same_shape (s s' : state) : Prop :=
  elems s' = elems s /\ maxTrails (obj s') = maxTrails (obj s) /\
  isInitialized (obj s') = isInitialized (obj s) /\
  body (env s') = body (env s) /\ next_node (env s') = next_node (env s).

(** The configuration [{trailLength: k}] and the one of the example. *)
Definition only_length (k : Z) : options := mkOptions None (Some k) None None None None.
Definition three_half : options := mkOptions None (Some 3%Z) None None None (Some 0.5).

(** [global.initializeCursory(options = {})] (lines 171-173); [None] is a
    call without argument, which takes the default [{}]. *)
Definition initializeCursory (s : state) (opts : option options) : state :=
  init s (match opts with Some o => o | None => empty_options end).

(** The style [Cursory] gives the element of trail [t] under configuration
    [c]: its look from [c], its placement at the trail's position. *)
Definition trail_look (c : options) (t : trail) : style := trail_style c (x t) (y t).

Definition styles_ok (s : state) : Prop :=
  Forall (fun t => styles (env s) (element t) = trail_look (config (obj s)) t)
         (trails (obj s)).

(** One pending frame callback, the one [animationFrame] holds, while
    initialized; none otherwise. *)
Definition frames_ok (s : state) : Prop :=
  (isInitialized (obj s) = true ->
     exists h, frame_queue (env s) = [h] /\ animationFrame (obj s) = Some h) /\
  (isInitialized (obj s) = false -> frame_queue (env s) = []).

(** Every registered listener was made before [next_fn]. *)
Definition listeners_ok (s : state) : Prop :=
  Forall (fun f => f < next_fn (env s))%nat (listeners (env s)).

(** Two states agreeing on the frame loop. *)
Definition same_frames (s s' : state) : Prop :=
  frame_queue (env s') = frame_queue (env s) /\
  animationFrame (obj s') = animationFrame (obj s) /\
  isInitialized (obj s') = isInitialized (obj s).


(** The pointer position [Cursory] holds. *)
Definition mouse_of (s : state) : Q * Q := (mouseX (obj s), mouseY (obj s)).

(** No [mousemove] event in [evs]. *)
Definition no_pointer_move (evs : list event) : Prop :=
  Forall (fun ev => match ev with MouseMove _ _ => False | _ => True end) evs.

(** The children of [body] are the page's own nodes [page], followed by
    the trail elements in the order of [Cursory.trails], none of which is
    a node of the page. *)
Definition page_ok (page : list nat) (s : state) : Prop :=
  body (env s) = page ++ elems s /\ Forall (fun e => ~ In e page) (elems s).

(** Every event of [evs], run in turn from [s], is one [event_ok] allows. *)
Fixpoint runs_ok (s : state) (evs : list event) : Prop :=
  match evs with
  | [] => True
  | ev :: evs' => event_ok s ev /\ runs_ok (step s ev) evs'
  end.

(** ** Lemmas *)

Lemma animate_obj (s : state) (fs : Q) :
  followSpeed (config (obj s)) = Some fs ->
  obj (animate s) =
  with_animationFrame
    (with_trails (obj s) (map (ease (mouseX (obj s)) (mouseY (obj s)) fs) (trails (obj s))))
    (Some (next_frame (env s))).
Proof. intros H. unfold animate. rewrite H. reflexivity. Qed.

(** *** [create_trails] *)

Lemma create_trails_obj (n : nat) (s : state) :
  obj (create_trails n s) =
  with_trails (obj s)
    (trails (obj s) ++
     map (fun e => mkTrail e (mouseX (obj s)) (mouseY (obj s))) (seq (next_node (env s)) n)).
Proof.
  revert s; induction n as [| n IH]; intros s; simpl.
  - rewrite app_nil_r. destruct s as [[] h]. reflexivity.
  - rewrite IH. simpl. rewrite <- app_assoc. reflexivity.
Qed.

Lemma create_trails_env (n : nat) (s : state) :
  body (env (create_trails n s)) =
    fold_left appendChild (seq (next_node (env s)) n) (body (env s)) /\
  next_node (env (create_trails n s)) = (next_node (env s) + n)%nat /\
  listeners (env (create_trails n s)) = listeners (env s) /\
  next_fn (env (create_trails n s)) = next_fn (env s).
Proof.
  revert s; induction n as [| n IH]; intros s; simpl.
  - rewrite Nat.add_0_r. repeat split.
  - destruct (IH (create_trail s)) as (H1 & H2 & H3 & H4).
    rewrite H1, H2, H3, H4. simpl. repeat split. lia.
Qed.

Lemma followSpeed_merged (c : options) :
  exists fs, followSpeed (spread defaultOptions c) = Some fs.
Proof. unfold spread; simpl. destruct (followSpeed c); eexists; reflexivity. Qed.

Lemma trailLength_merged (c : options) :
  trailLength (spread defaultOptions c) =
  match trailLength c with Some k => Some k | None => Some 10%Z end.
Proof. reflexivity. Qed.

Lemma init_unfold (s : state) (c : options) : init s c = init_after_merge (merged s c).
Proof. reflexivity. Qed.

Lemma init_obj (s : state) (c : options) (fs : Q) :
  followSpeed (spread defaultOptions c) = Some fs ->
  trails (obj (init s c)) =
    map (ease (mouseX (obj s)) (mouseY (obj s)) fs)
      (trails (obj s) ++
       map (fun e => mkTrail e (mouseX (obj s)) (mouseY (obj s)))
           (seq (next_node (env s)) (loop_count (trailLength (spread defaultOptions c))))) /\
  maxTrails (obj (init s c)) = trailLength (spread defaultOptions c) /\
  isInitialized (obj (init s c)) = true /\
  mouseX (obj (init s c)) = mouseX (obj s) /\ mouseY (obj (init s c)) = mouseY (obj s).
Proof.
  intros Hfs.
  rewrite init_unfold. unfold init_after_merge.
  set (s2 := create_trails _ (merged s c)).
  assert (Ho : obj s2 = with_trails (obj (merged s c))
             (trails (obj s) ++
              map (fun e => mkTrail e (mouseX (obj s)) (mouseY (obj s)))
                  (seq (next_node (env s)) (loop_count (trailLength (spread defaultOptions c))))))
    by (unfold s2; rewrite create_trails_obj; reflexivity).
  set (s3 := set_env s2 _).
  assert (Hf : followSpeed (config (obj s3)) = Some fs)
    by (unfold s3; simpl; rewrite Ho; exact Hfs).
  cbn [set_obj obj with_isInitialized].
  rewrite (animate_obj s3 fs Hf).
  unfold s3; simpl. rewrite Ho. simpl.
  repeat split; reflexivity.
Qed.

Lemma skipn_map_app {A B : Type} (f : A -> B) (l1 l2 : list A) :
  skipn (List.length l1) (map f (l1 ++ l2)) = map f l2.
Proof. induction l1 as [| a l1 IH]; simpl; [reflexivity | exact IH]. Qed.

Lemma ease_fixed (mx my fs : Q) (e : nat) :
  x (ease mx my fs (mkTrail e mx my)) == mx /\ y (ease mx my fs (mkTrail e mx my)) == my.
Proof. unfold ease; simpl; split; ring. Qed.

(** *** Nothing reads [trailSpeed] *)

Ltac destruct_state s :=
  destruct s as [[[? ? ? ? ? ?] ? ? ? ? ? ?] [? ? ? ? ? ? ?]].

Lemma erase_idem (s : state) : erase (erase s) = erase s.
Proof. reflexivity. Qed.

Lemma state_of_map {A B : Type} (f : A -> B) (r : result A) :
  state_of (map_result f r) = f (state_of r).
Proof. destruct r; reflexivity. Qed.

Lemma create_trail_erase (s : state) : create_trail (erase s) = erase (create_trail s).
Proof. destruct_state s. reflexivity. Qed.

Lemma create_trails_erase (n : nat) (s : state) :
  create_trails n (erase s) = erase (create_trails n s).
Proof.
  revert s; induction n as [| n IH]; intros s; simpl; [reflexivity |].
  rewrite create_trail_erase. apply IH.
Qed.

Lemma animate_erase (s : state) : animate (erase s) = erase (animate s).
Proof. destruct_state s. reflexivity. Qed.

Lemma fold_animate_erase {A : Type} (l : list A) (s : state) :
  fold_left (fun s _ => animate s) l (erase s) = erase (fold_left (fun s _ => animate s) l s).
Proof.
  revert s; induction l as [| a l IH]; intros s; simpl; [reflexivity |].
  rewrite animate_erase. apply IH.
Qed.

Lemma frame_erase (s : state) : frame (erase s) = erase (frame s).
Proof. unfold frame. rewrite <- fold_animate_erase. reflexivity. Qed.

Lemma fold_track_erase {A : Type} (l : list A) (cx cy : Q) (s : state) :
  fold_left (fun s _ => trackMouse s cx cy) l (erase s) =
  erase (fold_left (fun s _ => trackMouse s cx cy) l s).
Proof.
  revert s; induction l as [| a l IH]; intros s; simpl; [reflexivity |].
  apply (IH (trackMouse s cx cy)).
Qed.

Lemma dispatch_erase (s : state) (cx cy : Q) :
  dispatch_mousemove (erase s) cx cy = erase (dispatch_mousemove s cx cy).
Proof. unfold dispatch_mousemove. rewrite <- fold_track_erase. reflexivity. Qed.

Lemma restyle_erase (s : state) : restyle (erase s) = erase (restyle s).
Proof. destruct_state s. reflexivity. Qed.

Lemma remove_trails_erase (n : nat) (s : state) :
  remove_trails n (erase s) = map_result erase (remove_trails n s).
Proof.
  revert s; induction n as [| n IH]; intros s; [reflexivity |].
  cbn [remove_trails].
  change (trails (obj (erase s))) with (trails (obj s)).
  destruct (pop (trails (obj s))) as [[rest t] |]; [| reflexivity].
  change (body (env (set_obj (erase s) (with_trails (obj (erase s)) rest))))
    with (body (env s)).
  change (body (env (set_obj s (with_trails (obj s) rest)))) with (body (env s)).
  destruct (removeChild (body (env s)) (element t)) as [b |]; [| reflexivity].
  rewrite <- IH. reflexivity.
Qed.

Lemma adjust_trails_erase (s : state) (c : options) :
  adjust_trails (erase s) c = map_result erase (adjust_trails s c).
Proof.
  unfold adjust_trails.
  change (maxTrails (obj (erase s))) with (maxTrails (obj s)).
  destruct (trailLength c) as [k |]; [| reflexivity].
  destruct (maxTrails (obj s)) as [m |].
  - destruct (negb (k =? 0)%Z && negb (k =? m)%Z); [| reflexivity].
    destruct (k >? m)%Z.
    + rewrite create_trails_erase. reflexivity.
    + rewrite remove_trails_erase. destruct (remove_trails _ s); reflexivity.
  - destruct (negb (k =? 0)%Z && true); reflexivity.
Qed.

Lemma updateConfig_erase (s : state) (c : options) :
  map_result erase (updateConfig (erase s) c) = map_result erase (updateConfig s c).
Proof.
  unfold updateConfig.
  change (isInitialized (obj (erase s))) with (isInitialized (obj s)).
  destruct (isInitialized (obj s)); simpl; [| reflexivity].
  rewrite <- !adjust_trails_erase, <- !restyle_erase. reflexivity.
Qed.

Lemma destroy_erase (s : state) : destroy (erase s) = map_result erase (destroy s).
Proof.
  unfold destroy.
  change (isInitialized (obj (erase s))) with (isInitialized (obj s)).
  destruct (isInitialized (obj s)); simpl; [| reflexivity].
  destruct (remove_elements (trails (obj s)) (body (env s))); reflexivity.
Qed.

Lemma init_erase (s : state) (c : options) : init (erase s) c = init s c.
Proof. reflexivity. Qed.

Lemma init_after_merge_erase (s : state) :
  init_after_merge (erase s) = erase (init_after_merge s).
Proof.
  unfold init_after_merge.
  change (maxTrails (obj (erase s))) with (maxTrails (obj s)).
  rewrite create_trails_erase.
  generalize (create_trails (loop_count (maxTrails (obj s))) s). intros t.
  destruct_state t. reflexivity.
Qed.

Lemma init_trailSpeed (s : state) (c : options) (v : option Q) :
  erase (init s (with_trailSpeed c v)) = erase (init s c).
Proof.
  rewrite !init_unfold, <- !init_after_merge_erase. reflexivity.
Qed.

Lemma step_erase (s : state) (ev : event) :
  erase (step (erase s) ev) = erase (step s ev).
Proof.
  destruct ev as [c | cx cy | | c |]; cbn [step].
  - reflexivity.
  - rewrite dispatch_erase. apply erase_idem.
  - rewrite frame_erase. apply erase_idem.
  - rewrite <- (state_of_map erase (updateConfig (erase s) c)),
            <- (state_of_map erase (updateConfig s c)), updateConfig_erase.
    reflexivity.
  - rewrite destroy_erase, (state_of_map erase (destroy s)). apply erase_idem.
Qed.

Lemma run_erase (evs : list event) (s1 s2 : state) :
  erase s1 = erase s2 -> erase (run s1 evs) = erase (run s2 evs).
Proof.
  unfold run. revert s1 s2; induction evs as [| ev evs IH]; intros s1 s2 H; simpl.
  - exact H.
  - apply IH. rewrite <- (step_erase s1), H, step_erase. reflexivity.
Qed.

(** *** The page and the trail elements *)

Lemma remove_first_notin (e : nat) (l : list nat) : ~ In e l -> remove_first e l = l.
Proof.
  induction l as [| a l IH]; intros H; simpl; [reflexivity |].
  destruct (Nat.eqb_spec a e) as [-> | Hne].
  - exfalso. apply H. left. reflexivity.
  - rewrite IH; [reflexivity |]. intros Hin. apply H. right. exact Hin.
Qed.

Lemma remove_first_keeps (e e' : nat) (l : list nat) :
  e' <> e -> In e' l -> In e' (remove_first e l).
Proof.
  induction l as [| a l IH]; intros Hne Hin; simpl; [exact Hin |].
  destruct (Nat.eqb_spec a e) as [-> | Hae].
  - destruct Hin as [-> | Hin]; [congruence | exact Hin].
  - destruct Hin as [-> | Hin]; [left; reflexivity | right; apply IH; assumption].
Qed.

Lemma remove_first_sub (e e' : nat) (l : list nat) :
  In e' (remove_first e l) -> In e' l.
Proof.
  induction l as [| a l IH]; simpl; [tauto |].
  destruct (Nat.eqb a e); simpl; [tauto |].
  intros [H | H]; [left; exact H | right; apply IH; exact H].
Qed.

Lemma removeChild_in (b : list nat) (e : nat) :
  In e b -> removeChild b e = Some (remove_first e b).
Proof.
  intros H. unfold removeChild.
  replace (existsb (Nat.eqb e) b) with true; [reflexivity |].
  symmetry. apply existsb_exists. exists e. split; [exact H | apply Nat.eqb_refl].
Qed.

Lemma Forall_sub {A : Type} (P : A -> Prop) (l l' : list A) :
  (forall a, In a l' -> In a l) -> Forall P l -> Forall P l'.
Proof.
  intros Hs H. rewrite Forall_forall in *. intros a Ha. apply H, Hs, Ha.
Qed.

Lemma pop_last {A : Type} (l : list A) :
  l <> [] -> exists rest a, pop l = Some (rest, a) /\ l = rest ++ [a].
Proof.
  intros H. destruct (exists_last H) as [rest [a ->]].
  exists rest, a. split; [| reflexivity].
  unfold pop. rewrite rev_app_distr. simpl. rewrite rev_involutive. reflexivity.
Qed.

Lemma dom_ok_transfer (s s' : state) :
  elems s' = elems s -> body (env s') = body (env s) ->
  next_node (env s') = next_node (env s) -> dom_ok s -> dom_ok s'.
Proof. intros H1 H2 H3. unfold dom_ok. rewrite H1, H2, H3. tauto. Qed.

Lemma inv_transfer (s s' : state) : same_shape s s' -> inv s -> inv s'.
Proof.
  intros (H1 & H2 & H3 & H4 & H5) (I1 & I2 & I3).
  split; [| split].
  - rewrite H1, H3. exact I1.
  - rewrite H1, H2, H3. exact I2.
  - apply (dom_ok_transfer s); assumption.
Qed.

Lemma same_shape_refl (s : state) : same_shape s s.
Proof. repeat split. Qed.

Lemma same_shape_trans (s1 s2 s3 : state) :
  same_shape s1 s2 -> same_shape s2 s3 -> same_shape s1 s3.
Proof.
  intros (A1 & A2 & A3 & A4 & A5) (B1 & B2 & B3 & B4 & B5).
  repeat split; congruence.
Qed.

Lemma animate_shape (s : state) : same_shape s (animate s).
Proof.
  unfold animate, same_shape, elems; simpl.
  destruct (followSpeed (config (obj s))); [| repeat split].
  rewrite map_map. repeat split.
Qed.

Lemma fold_animate_shape {A : Type} (l : list A) (s : state) :
  same_shape s (fold_left (fun s _ => animate s) l s).
Proof.
  revert s; induction l as [| a l IH]; intros s; simpl; [apply same_shape_refl |].
  eapply same_shape_trans; [apply animate_shape | apply IH].
Qed.

Lemma frame_shape (s : state) : same_shape s (frame s).
Proof.
  unfold frame.
  eapply same_shape_trans; [| apply fold_animate_shape]. repeat split.
Qed.

Lemma dispatch_shape (s : state) (cx cy : Q) : same_shape s (dispatch_mousemove s cx cy).
Proof.
  unfold dispatch_mousemove. generalize (listeners (env s)). intros l.
  revert s; induction l as [| a l IH]; intros s; simpl; [apply same_shape_refl |].
  eapply same_shape_trans; [| apply IH]. repeat split.
Qed.

Lemma restyle_shape (s : state) : same_shape s (restyle s).
Proof. repeat split. Qed.

Lemma create_trail_dom (s : state) :
  dom_ok s ->
  dom_ok (create_trail s) /\ elems (create_trail s) = elems s ++ [next_node (env s)].
Proof.
  intros (Hnd & Hin & Hlt).
  assert (Hfresh : ~ In (next_node (env s)) (body (env s))).
  { intros H. rewrite Forall_forall in Hlt. apply Hlt in H. lia. }
  assert (He : elems (create_trail s) = elems s ++ [next_node (env s)]).
  { unfold elems, create_trail; simpl. rewrite map_app. reflexivity. }
  split; [| exact He].
  unfold dom_ok. rewrite He. unfold create_trail; simpl.
  unfold appendChild. rewrite (remove_first_notin _ _ Hfresh).
  split; [| split].
  - apply NoDup_app; [exact Hnd | repeat constructor; simpl; tauto |].
    intros a Ha [Heq | []]. subst a. apply Hfresh.
    rewrite Forall_forall in Hin. apply Hin, Ha.
  - apply Forall_app. split.
    + eapply Forall_impl; [| exact Hin]. intros a Ha. apply in_or_app. left. exact Ha.
    + repeat constructor. apply in_or_app. right. left. reflexivity.
  - apply Forall_app. split.
    + eapply Forall_impl; [| exact Hlt]. intros a Ha. cbv beta in *. lia.
    + repeat constructor.
Qed.

Lemma create_trails_dom (n : nat) (s : state) :
  dom_ok s ->
  dom_ok (create_trails n s) /\
  List.length (elems (create_trails n s)) = (List.length (elems s) + n)%nat.
Proof.
  revert s; induction n as [| n IH]; intros s Hs; simpl; [split; [exact Hs | lia] |].
  destruct (create_trail_dom s Hs) as [Hs' He].
  destruct (IH _ Hs') as [H1 H2]. split; [exact H1 |].
  rewrite H2, He, length_app. simpl. lia.
Qed.

Lemma remove_trails_ok (n : nat) (s : state) :
  dom_ok s -> (n <= List.length (elems s))%nat ->
  exists s', remove_trails n s = Ok s' /\ dom_ok s' /\
    List.length (elems s') = (List.length (elems s) - n)%nat /\
    maxTrails (obj s') = maxTrails (obj s) /\
    isInitialized (obj s') = isInitialized (obj s) /\
    config (obj s') = config (obj s).
Proof.
  revert s; induction n as [| n IH]; intros s Hs Hn.
  - exists s. rewrite Nat.sub_0_r. repeat split; try reflexivity; apply Hs.
  - assert (Hne : trails (obj s) <> []).
    { intros H. unfold elems in Hn. rewrite H in Hn. simpl in Hn. lia. }
    destruct (pop_last _ Hne) as (rest & t & Hpop & Heq).
    destruct Hs as (Hnd & Hin & Hlt).
    unfold elems in Hnd, Hin, Hn. rewrite Heq, map_app in Hnd, Hin. rewrite Heq in Hn.
    rewrite length_map, length_app in Hn. simpl in Hn.
    apply Forall_app in Hin as [Hin Ht]. inversion Ht as [| ? ? Het _]; subst.
    pose proof (NoDup_remove_2 _ [] _ Hnd) as Hnot. rewrite app_nil_r in Hnot.
    cbn [remove_trails]. rewrite Hpop. simpl. rewrite (removeChild_in _ _ Het).
    set (s2 := set_env (set_obj s (with_trails (obj s) rest))
                 (with_body (env (set_obj s (with_trails (obj s) rest)))
                            (remove_first (element t) (body (env s))))).
    assert (Hd2 : dom_ok s2).
    { split; [| split].
      - eapply NoDup_app_remove_r. exact Hnd.
      - rewrite Forall_forall in *. intros e He. simpl.
        apply remove_first_keeps; [intros ->; exact (Hnot He) | apply Hin, He].
      - eapply Forall_sub; [| exact Hlt]. intros a. apply remove_first_sub. }
    destruct (IH s2 Hd2) as (s' & Hr & Hd' & Hl & Hm & Hi & Hc).
    { unfold elems; simpl. rewrite length_map. lia. }
    exists s'. split; [exact Hr |]. split; [exact Hd' |].
    rewrite Hl, Hm, Hi, Hc. unfold elems, s2; simpl.
    rewrite Heq, !length_map. rewrite length_app. simpl. repeat split. lia.
Qed.

Lemma remove_elements_ok (ts : list trail) (b : list nat) :
  NoDup (map element ts) -> Forall (fun e => In e b) (map element ts) ->
  exists b', remove_elements ts b = Ok b' /\ (forall e, In e b' -> In e b).
Proof.
  revert b; induction ts as [| t ts IH]; intros b Hnd Hin; simpl.
  - exists b. split; [reflexivity | tauto].
  - simpl in Hnd, Hin.
    inversion Hnd as [| ? ? Hnot Hnd']; subst.
    inversion Hin as [| ? ? Ht Hin']; subst.
    rewrite (removeChild_in _ _ Ht).
    destruct (IH (remove_first (element t) b) Hnd') as (b' & H1 & H2).
    { rewrite Forall_forall in *. intros e He.
      apply remove_first_keeps; [intros ->; exact (Hnot He) | apply Hin', He]. }
    exists b'. split; [exact H1 |].
    intros e He. apply (remove_first_sub (element t)). apply H2, He.
Qed.

Lemma adjust_trails_ok (s : state) (c : options) :
  dom_ok s -> maxTrails (obj s) = Some (Z.of_nat (List.length (elems s))) ->
  length_ok c ->
  (forall k, trailLength c = Some k -> trailLength (config (obj s)) = Some k) ->
  exists s', adjust_trails s c = Ok s' /\ dom_ok s' /\
    maxTrails (obj s') = Some (Z.of_nat (List.length (elems s'))) /\
    isInitialized (obj s') = isInitialized (obj s).
Proof.
  intros Hd Hm Hk Hc. unfold adjust_trails. unfold length_ok in Hk.
  destruct (trailLength c) as [k |] eqn:Ek; [| exists s; tauto].
  specialize (Hc k eq_refl). rewrite Hm.
  set (m := Z.of_nat (List.length (elems s))) in *.
  destruct (negb (k =? 0)%Z && negb (k =? m)%Z) eqn:Eg; [| exists s; tauto].
  apply andb_true_iff in Eg as [E1 E2].
  apply negb_true_iff, Z.eqb_neq in E1. apply negb_true_iff, Z.eqb_neq in E2.
  rewrite Z.gtb_ltb. destruct (Z.ltb_spec m k) as [Hlt | Hge].
  - destruct (create_trails_dom (Z.to_nat (k - m)) s Hd) as [Hd' Hl].
    eexists. split; [reflexivity |].
    split; [exact Hd' |].
    split; [| cbn [set_obj obj with_maxTrails isInitialized];
              rewrite create_trails_obj; reflexivity].
    assert (Hcfg : trailLength (config (obj (create_trails (Z.to_nat (k - m)) s))) = Some k)
      by (rewrite create_trails_obj; exact Hc).
    cbn [set_obj obj with_maxTrails maxTrails]. rewrite Hcfg.
    change (elems (set_obj (create_trails (Z.to_nat (k - m)) s)
              (with_maxTrails (obj (create_trails (Z.to_nat (k - m)) s)) (Some k))))
      with (elems (create_trails (Z.to_nat (k - m)) s)).
    rewrite Hl. f_equal. unfold m in *. lia.
  - destruct (remove_trails_ok (Z.to_nat (m - k)) s Hd) as (s' & Hr & Hd' & Hl & Hmx & Hi & Hcf).
    { unfold m in *. lia. }
    rewrite Hr. eexists. split; [reflexivity |].
    split; [exact Hd' |]. split; [| exact Hi].
    cbn [set_obj obj with_maxTrails maxTrails]. rewrite Hcf, Hc.
    change (elems (set_obj s' (with_maxTrails (obj s') (Some k)))) with (elems s').
    rewrite Hl. f_equal. unfold m in *. lia.
Qed.

Lemma updateConfig_ok (s : state) (c : options) :
  inv s -> length_ok c -> exists s', updateConfig s c = Ok s' /\ inv s'.
Proof.
  intros (I1 & I2 & I3) Hk. unfold updateConfig.
  destruct (isInitialized (obj s)) eqn:Ei; simpl.
  - set (s1 := restyle (set_obj s (with_config (obj s) (spread (config (obj s)) c)))).
    destruct (adjust_trails_ok s1 c) as (s' & Hr & Hd & Hm & Hi).
    + exact I3.
    + exact (I2 eq_refl).
    + exact Hk.
    + intros k Hk'. simpl. rewrite Hk'. reflexivity.
    + exists s'. split; [exact Hr |].
      assert (Hi' : isInitialized (obj s') = true) by (rewrite Hi; exact Ei).
      unfold inv. rewrite Hi'.
      split; [discriminate | split; [intros _; exact Hm | exact Hd]].
  - exists s. split; [reflexivity |]. unfold inv. rewrite Ei. exact (conj I1 (conj I2 I3)).
Qed.

Lemma destroy_ok (s : state) : inv s -> exists s', destroy s = Ok s' /\ inv s'.
Proof.
  intros (I1 & I2 & I3). unfold destroy.
  destruct (isInitialized (obj s)) eqn:Ei; simpl.
  - destruct I3 as (Hnd & Hin & Hlt).
    destruct (remove_elements_ok (trails (obj s)) (body (env s)) Hnd Hin) as (b' & Hr & Hs).
    rewrite Hr. eexists. split; [reflexivity |].
    split; [reflexivity | split; [discriminate |]].
    split; [constructor | split; [constructor |]].
    simpl. eapply Forall_sub; [exact Hs | exact Hlt].
  - exists s. split; [reflexivity |]. unfold inv. rewrite Ei. exact (conj I1 (conj I2 I3)).
Qed.

Lemma init_after_merge_dom (s1 : state) :
  let s2 := create_trails (loop_count (maxTrails (obj s1))) s1 in
  elems (init_after_merge s1) = elems s2 /\
  body (env (init_after_merge s1)) = body (env s2) /\
  next_node (env (init_after_merge s1)) = next_node (env s2).
Proof.
  intros s2. unfold init_after_merge. cbv zeta. fold s2.
  destruct (animate_shape (set_env s2 (with_listeners (env s2)
             (addEventListener (listeners (env s2)) (next_fn (env s2)))
             (S (next_fn (env s2)))))) as (A1 & _ & _ & A4 & A5).
  split; [exact A1 | split; [exact A4 | exact A5]].
Qed.

Lemma init_inv (s : state) (c : options) :
  inv s -> isInitialized (obj s) = false -> length_ok c -> inv (init s c).
Proof.
  intros (I1 & I2 & I3) Hi Hk. specialize (I1 Hi).
  assert (Htr : trails (obj s) = []) by (apply map_eq_nil in I1; exact I1).
  assert (Hkm : exists k, trailLength (spread defaultOptions c) = Some k /\ (0 <= k)%Z).
  { rewrite trailLength_merged. unfold length_ok in Hk.
    destruct (trailLength c) as [k |]; eexists; split; [reflexivity | exact Hk | reflexivity | lia]. }
  destruct Hkm as (k & Hkm & Hnn).
  destruct (followSpeed_merged c) as [fs Hfs].
  destruct (init_obj s c fs Hfs) as (Ht & Hm & Hii & _ & _).
  split; [| split].
  - rewrite Hii. discriminate.
  - intros _. rewrite Hm, Hkm. f_equal.
    unfold elems. rewrite Ht, Htr, Hkm. simpl.
    rewrite !length_map, length_seq. cbn [loop_count]. lia.
  - rewrite init_unfold.
    destruct (init_after_merge_dom (merged s c)) as (D1 & D2 & D3).
    apply (dom_ok_transfer (create_trails (loop_count (maxTrails (obj (merged s c)))) (merged s c)));
      [exact D1 | exact D2 | exact D3 |].
    apply create_trails_dom. apply (dom_ok_transfer s); [reflexivity | reflexivity | reflexivity | exact I3].
Qed.

Lemma step_inv (s : state) (ev : event) : inv s -> event_ok s ev -> inv (step s ev).
Proof.
  intros H Hok. destruct ev as [c | cx cy | | c |]; cbn [step]; simpl in Hok.
  - destruct Hok as [Hi Hk]. apply init_inv; assumption.
  - exact (inv_transfer _ _ (dispatch_shape s cx cy) H).
  - exact (inv_transfer _ _ (frame_shape s) H).
  - destruct (updateConfig_ok s c H Hok) as (s' & Hr & Hs). rewrite Hr. exact Hs.
  - destruct (destroy_ok s H) as (s' & Hr & Hs). rewrite Hr. exact Hs.
Qed.

Lemma initial_inv (page : list nat) : inv (initial_state page).
Proof.
  split; [reflexivity | split; [discriminate |]].
  split; [constructor | split; [constructor |]]. simpl.
  assert (H : Forall (fun k => k <= list_max page)%nat page) by (apply list_max_le; lia).
  eapply Forall_impl; [| exact H]. intros a Ha. cbv beta in *. lia.
Qed.

Lemma reachable_inv (s : state) : reachable s -> inv s.
Proof.
  induction 1 as [page | s ev Hr IH Hok].
  - apply initial_inv.
  - apply step_inv; assumption.
Qed.


(** *** Only [trackMouse] writes the pointer position *)

Lemma create_trails_mouse (n : nat) (s : state) : mouse_of (create_trails n s) = mouse_of s.
Proof. unfold mouse_of. rewrite create_trails_obj. reflexivity. Qed.

Lemma fold_animate_mouse {A : Type} (l : list A) (s : state) :
  mouse_of (fold_left (fun s _ => animate s) l s) = mouse_of s.
Proof.
  revert s; induction l as [| a l IH]; intros s; simpl; [reflexivity |].
  rewrite IH. reflexivity.
Qed.

Lemma init_mouse (s : state) (c : options) : mouse_of (init s c) = mouse_of s.
Proof.
  destruct (followSpeed_merged c) as [fs Hfs].
  destruct (init_obj s c fs Hfs) as (_ & _ & _ & Hx & Hy).
  unfold mouse_of. rewrite Hx, Hy. reflexivity.
Qed.

Lemma remove_trails_mouse (n : nat) (s : state) :
  mouse_of (state_of (remove_trails n s)) = mouse_of s.
Proof.
  revert s; induction n as [| n IH]; intros s; [reflexivity |].
  cbn [remove_trails].
  destruct (pop (trails (obj s))) as [[rest t] |]; [| reflexivity].
  destruct (removeChild _ _) as [b |]; [| reflexivity].
  rewrite IH. reflexivity.
Qed.

Lemma adjust_trails_mouse (s : state) (c : options) :
  mouse_of (state_of (adjust_trails s c)) = mouse_of s.
Proof.
  unfold adjust_trails.
  destruct (trailLength c) as [k |]; [| reflexivity].
  destruct (negb _ && _); [| reflexivity].
  destruct (maxTrails (obj s)) as [m |].
  - destruct (k >? m)%Z.
    + cbn [state_of]. exact (create_trails_mouse _ s).
    + pose proof (remove_trails_mouse (Z.to_nat (m - k)) s) as H.
      destruct (remove_trails _ s); exact H.
  - reflexivity.
Qed.

Lemma updateConfig_mouse (s : state) (c : options) :
  mouse_of (state_of (updateConfig s c)) = mouse_of s.
Proof.
  unfold updateConfig. destruct (isInitialized (obj s)); cbn [negb]; [| reflexivity].
  rewrite adjust_trails_mouse. reflexivity.
Qed.

Lemma destroy_mouse (s : state) : mouse_of (state_of (destroy s)) = mouse_of s.
Proof.
  unfold destroy. destruct (isInitialized (obj s)); cbn [negb]; [| reflexivity].
  destruct (remove_elements _ _); reflexivity.
Qed.

Lemma run_mouse (s : state) (evs : list event) :
  no_pointer_move evs -> mouse_of (run s evs) = mouse_of s.
Proof.
  unfold run. revert s; induction evs as [| ev evs IH]; intros s H; [reflexivity |].
  inversion H as [| ? ? Hev Hrest]; subst. simpl. rewrite (IH _ Hrest).
  destruct ev as [c | cx cy | | c |]; cbn [step].
  - apply init_mouse.
  - destruct Hev.
  - unfold frame. rewrite fold_animate_mouse. reflexivity.
  - apply updateConfig_mouse.
  - apply destroy_mouse.
Qed.

(** *** Rounding to binary64 *)

Section Binary64.
Local Open Scope Z_scope.

Lemma rne_shift_spec (M s : Z) : 0 <= s ->
  (rne_shift M s = M / 2 ^ s /\ 2 * (M mod 2 ^ s) <= 2 ^ s) \/
  (rne_shift M s = M / 2 ^ s + 1 /\ 2 ^ s <= 2 * (M mod 2 ^ s)).
Proof.
  intros Hs. unfold rne_shift.
  destruct (Z.ltb_spec (2 * (M mod 2 ^ s)) (2 ^ s)); [left; split; [reflexivity | lia] |].
  destruct (Z.ltb_spec (2 ^ s) (2 * (M mod 2 ^ s))); [right; split; [reflexivity | lia] |].
  destruct (Z.even (M / 2 ^ s)); [left | right]; split; try reflexivity; lia.
Qed.

Lemma round_pos_nearest (M k : Z) : 0 <= M -> 0 <= k ->
  is_double (round_pos M k) /\
  forall n, is_double n -> Z.abs (M - round_pos M k * 2 ^ k) <= Z.abs (M - n * 2 ^ k).
Proof.
  intros HM Hk. unfold round_pos.
  set (L := Z.log2 M).
  set (s := Z.max (L + 1 - 53) k).
  assert (Hsk : k <= s) by lia.
  assert (Hs0 : 0 <= s) by lia.
  set (P := 2 ^ s).
  assert (HP : 0 < P) by (apply Z.pow_pos_nonneg; lia).
  assert (HL0 : 0 <= L) by apply Z.log2_nonneg.
  assert (HMlt : M < 2 ^ (L + 1)).
  { destruct (Z.eq_dec M 0) as [-> | HM0]; [reflexivity |].
    apply Z.log2_spec. lia. }
  assert (Hdm := Z.div_mod M P ltac:(lia)).
  assert (Hmod := Z.mod_pos_bound M P HP).
  set (q := M / P) in *. set (r := M mod P) in *.
  assert (Hq0 : 0 <= q) by (apply Z.div_pos; lia).
  assert (Hq53 : q < 2 ^ 53).
  { apply Z.div_lt_upper_bound; [exact HP |].
    destruct (Z.le_gt_cases (L + 1 - 53) 0) as [Hle | Hgt].
    - assert (2 ^ (L + 1) <= 2 ^ 53) by (apply Z.pow_le_mono_r; lia).
      assert (1 <= P) by lia. nia.
    - assert (E : 2 ^ (L + 1) = 2 ^ 53 * 2 ^ (L + 1 - 53)) by (rewrite <- Z.pow_add_r; [f_equal; lia | lia | lia]).
      assert (2 ^ (L + 1 - 53) <= P) by (apply Z.pow_le_mono_r; lia).
      nia. }
  assert (HPk : 2 ^ (s - k) * 2 ^ k = P) by (unfold P; rewrite <- Z.pow_add_r by lia; f_equal; lia).
  assert (Hgrid : forall n, is_double n -> n * 2 ^ k <= q * P \/ (q + 1) * P <= n * 2 ^ k).
  { intros n (m & e & He & Hm & ->).
    destruct (Z.le_gt_cases s (e + k)) as [Hes | Hes].
    - assert (E : m * 2 ^ e * 2 ^ k = m * 2 ^ (e + k - s) * P).
      { unfold P. rewrite <- Z.mul_assoc, <- Z.mul_assoc, <- !Z.pow_add_r by lia. f_equal. f_equal. lia. }
      rewrite E. set (a := m * 2 ^ (e + k - s)).
      destruct (Z.le_gt_cases a q); [left | right]; nia.
    - left.
      assert (Hsl : s = L + 1 - 53) by lia.
      assert (HM0 : 0 < M).
      { destruct (Z.eq_dec M 0) as [E | ]; [| lia]. subst L. rewrite E in Hsl. simpl in Hsl. lia. }
      assert (HML : 2 ^ L <= M) by (apply Z.log2_spec; lia).
      assert (EP : 2 ^ L = 2 ^ 52 * P) by (unfold P; rewrite <- Z.pow_add_r by lia; f_equal; lia).
      assert (Hq52 : 2 ^ 52 <= q).
      { unfold q. apply Z.div_le_lower_bound; lia. }
      assert (Eek : 2 ^ e * 2 ^ k = 2 ^ (e + k)) by (rewrite <- Z.pow_add_r; lia).
      assert (Hek : 2 * 2 ^ (e + k) <= P).
      { assert (EP2 : P = 2 * 2 ^ (s - 1)).
        { unfold P. rewrite <- (Z.pow_1_r 2) at 2. rewrite <- Z.pow_add_r by lia. f_equal. lia. }
        rewrite EP2. apply Z.mul_le_mono_nonneg_l; [lia |]. apply Z.pow_le_mono_r; lia. }
      assert (Hpe : 0 < 2 ^ (e + k)) by (apply Z.pow_pos_nonneg; lia).
      rewrite <- Z.mul_assoc, Eek.
      assert (m * 2 ^ (e + k) <= 2 ^ 53 * 2 ^ (e + k)).
      { apply Z.mul_le_mono_nonneg_r; lia. }
      nia. }
  destruct (rne_shift_spec M s Hs0) as [[Hr Hc] | [Hr Hc]]; fold P q r in Hr, Hc; rewrite Hr.
  - split.
    + exists q, (s - k). split; [lia | split; [lia | reflexivity]].
    + intros n Hn. rewrite <- Z.mul_assoc, HPk.
      destruct (Hgrid n Hn); lia.
  - split.
    + exists (q + 1), (s - k). split; [lia | split; [lia | reflexivity]].
    + intros n Hn. rewrite <- Z.mul_assoc, HPk.
      destruct (Hgrid n Hn); lia.
Qed.

Lemma is_double_opp (n : Z) : is_double n -> is_double (- n).
Proof. intros (m & e & He & Hm & ->). exists (- m), e. split; [lia | split; [lia | ring]]. Qed.

Lemma round_nearest (M k : Z) : 0 <= k ->
  is_double (round M k) /\
  forall n, is_double n -> Z.abs (M - round M k * 2 ^ k) <= Z.abs (M - n * 2 ^ k).
Proof.
  intros Hk. unfold round. destruct (Z.ltb_spec M 0) as [Hneg | Hpos].
  - destruct (round_pos_nearest (- M) k ltac:(lia) Hk) as [Hd Hn].
    split; [now apply is_double_opp |].
    intros n Hdn. specialize (Hn (- n) (is_double_opp n Hdn)).
    rewrite Z.mul_opp_l in Hn |- *. lia.
  - exact (round_pos_nearest M k Hpos Hk).
Qed.

Lemma round_exact (n k : Z) : 0 <= k -> is_double n -> round (n * 2 ^ k) k = n.
Proof.
  intros Hk Hn. destruct (round_nearest (n * 2 ^ k) k Hk) as [_ H].
  specialize (H n Hn). rewrite Z.sub_diag in H. simpl in H.
  assert (E : round (n * 2 ^ k) k * 2 ^ k = n * 2 ^ k) by lia.
  apply Z.mul_cancel_r in E; [exact E |].
  assert (0 < 2 ^ k) by (apply Z.pow_pos_nonneg; lia). lia.
Qed.

Lemma round_mono (M1 M2 k : Z) : 0 <= k -> M1 <= M2 -> round M1 k <= round M2 k.
Proof.
  intros Hk H12.
  destruct (round_nearest M1 k Hk) as [Hd1 Hn1].
  destruct (round_nearest M2 k Hk) as [Hd2 Hn2].
  destruct (Z.le_gt_cases (round M1 k) (round M2 k)) as [| Hgt]; [assumption | exfalso].
  specialize (Hn1 _ Hd2). specialize (Hn2 _ Hd1).
  assert (0 < 2 ^ k) by (apply Z.pow_pos_nonneg; lia).
  assert (round M2 k * 2 ^ k < round M1 k * 2 ^ k) by (apply Z.mul_lt_mono_pos_r; lia).
  (* both distances are equal, so M1 = M2 sits midway; the two rounded values are then equal *)
  assert (M1 = M2) by lia. subst M2. lia.
Qed.

Lemma round_zero (k : Z) : 0 <= k -> round 0 k = 0.
Proof.
  intros Hk. rewrite <- (round_exact 0 k Hk) at 2.
  - reflexivity.
  - exists 0, 0. split; [lia | split; [lia | reflexivity]].
Qed.

Lemma round_opp (M k : Z) : 0 <= k -> round (- M) k = - round M k.
Proof.
  intros Hk. destruct (Z.eq_dec M 0) as [-> | HM0].
  - simpl. rewrite round_zero by exact Hk. reflexivity.
  - unfold round. destruct (Z.ltb_spec (- M) 0), (Z.ltb_spec M 0); try lia.
    rewrite Z.opp_involutive. reflexivity.
Qed.

Lemma round_nearest0 (M : Z) :
  is_double (round M 0) /\ forall n, is_double n -> Z.abs (M - round M 0) <= Z.abs (M - n).
Proof.
  destruct (round_nearest M 0 ltac:(lia)) as [Hd Hn]. split; [exact Hd |].
  intros n H. specialize (Hn n H). rewrite Z.pow_0_r, !Z.mul_1_r in Hn. exact Hn.
Qed.

Lemma round_exact0 (n : Z) : is_double n -> round n 0 = n.
Proof. intros H. rewrite <- (round_exact n 0) at 2 by (lia || exact H). rewrite Z.pow_0_r, Z.mul_1_r. reflexivity. Qed.

Lemma is_double_pow2 (p : Z) : 0 <= p -> is_double (2 ^ p).
Proof. intros Hp. exists 1, p. split; [lia | split; [lia | ring]]. Qed.

(** One coordinate of the loop body, marker left of (or on) the pointer:
    the marker moves towards the pointer and at most as far past it. *)
Lemma coord64_toward_le (x mx fs : Z) :
  is_double x -> is_double mx -> 0 <= fs <= 2 ^ 1074 -> x <= mx ->
  x <= add64 x (mul64 (sub64 mx x) fs) <= 2 * mx - x.
Proof.
  intros Hx Hmx Hfs Hle. unfold add64, sub64, mul64.
  set (D := mx - x).
  set (d := round D 0).
  set (t := round (d * fs) 1074).
  assert (Hd0 : 0 <= d) by (rewrite <- (round_zero 0) by lia; apply round_mono; lia).
  destruct (round_nearest0 D) as [Hdd HnD]. fold d in Hdd, HnD.
  assert (Ht0 : 0 <= t) by (rewrite <- (round_zero 1074) by lia; apply round_mono; [lia | apply Z.mul_nonneg_nonneg; lia]).
  assert (Htd : t <= d).
  { unfold t. rewrite <- (round_exact d 1074 ltac:(lia) Hdd) at 2. apply round_mono; [lia |].
    apply Z.mul_le_mono_nonneg_l; lia. }
  assert (Hlo : x <= round (x + t) 0).
  { rewrite <- (round_exact0 x Hx) at 1. apply round_mono; lia. }
  assert (Hmid : round (x + t) 0 <= round (x + d) 0) by (apply round_mono; lia).
  destruct (round_nearest0 (x + d)) as [_ Hnx]. specialize (Hnx mx Hmx).
  assert (HdD : 2 * Z.abs (D - d) <= D).
  { destruct (Z.eq_dec D 0) as [HD0 | HD0].
    - specialize (HnD 0 ltac:(exists 0, 0; split; [lia | split; [lia | reflexivity]])). lia.
    - set (p := Z.log2 D).
      assert (Hp : 2 ^ p <= D < 2 ^ Z.succ p) by (apply Z.log2_spec; lia).
      assert (Hp0 : 0 <= p) by apply Z.log2_nonneg.
      specialize (HnD (2 ^ p) (is_double_pow2 p Hp0)).
      rewrite Z.pow_succ_r in Hp by exact Hp0. lia. }
  split; [exact Hlo | lia].
Qed.

Lemma coord64_opp (x mx fs : Z) :
  add64 x (mul64 (sub64 mx x) fs) = - add64 (- x) (mul64 (sub64 (- mx) (- x)) fs).
Proof.
  unfold add64, sub64, mul64.
  replace (- mx - - x) with (- (mx - x)) by ring.
  rewrite round_opp by lia.
  replace (- round (mx - x) 0 * fs) with (- (round (mx - x) 0 * fs)) by ring.
  rewrite round_opp by lia.
  replace (- x + - round (round (mx - x) 0 * fs) 1074) with (- (x + round (round (mx - x) 0 * fs) 1074)) by ring.
  rewrite round_opp by lia. ring.
Qed.

Lemma coord64_toward (x mx fs : Z) :
  is_double x -> is_double mx -> 0 <= fs <= 2 ^ 1074 ->
  Z.abs (mx - add64 x (mul64 (sub64 mx x) fs)) <= Z.abs (mx - x).
Proof.
  intros Hx Hmx Hfs. destruct (Z.le_gt_cases x mx).
  - pose proof (coord64_toward_le x mx fs Hx Hmx Hfs H). lia.
  - rewrite coord64_opp.
    pose proof (coord64_toward_le (- x) (- mx) fs (is_double_opp x Hx) (is_double_opp mx Hmx) Hfs ltac:(lia)).
    lia.
Qed.

Lemma coord64_still (x fs : Z) : is_double x -> add64 x (mul64 (sub64 x x) fs) = x.
Proof.
  intros Hx. unfold add64, sub64, mul64. rewrite Z.sub_diag, (round_zero 0) by lia.
  rewrite Z.mul_0_l, (round_zero 1074), Z.add_0_r by lia. exact (round_exact0 x Hx).
Qed.

Lemma coord64_zero_speed (x mx : Z) : is_double x -> add64 x (mul64 (sub64 mx x) 0) = x.
Proof.
  intros Hx. unfold add64, mul64. rewrite Z.mul_0_r, (round_zero 1074), Z.add_0_r by lia.
  exact (round_exact0 x Hx).
Qed.

Lemma sq_abs_le (a b : Z) : Z.abs a <= Z.abs b -> a * a <= b * b.
Proof. intros H. rewrite <- (Z.abs_square a), <- (Z.abs_square b) in *. 
  pose proof (Z.abs_nonneg a). nia. Qed.

End Binary64.

(** ** Claims *)

(** C3: every per-frame update moves every trail by
    [pos + (target - pos) * followSpeed] in both coordinates; after
    [init({trailLength: 3, followSpeed: 0.5})] with the pointer at (0,0)
    and a move to (100,0), every trail's x is 50 after one frame and 75
    after a second. *)
Theorem animate_easing (s : state) (fs : Q)
  (Hfs : followSpeed (config (obj s)) = Some fs) :
  trails (obj (animate s)) =
  map (fun t => mkTrail (element t) (x t + (mouseX (obj s) - x t) * fs)
                        (y t + (mouseY (obj s) - y t) * fs))
      (trails (obj s)) /\
  (let s1 := init (initial_state []) three_half in
   let s2 := step s1 (MouseMove 100 0) in
   let s3 := step s2 Frame in
   let s4 := step s3 Frame in
   (mouseX (obj s1), mouseY (obj s1)) = (0, 0) /\
   Forall (fun t => x t == 0) (trails (obj s1)) /\
   List.length (trails (obj s3)) = 3%nat /\
   Forall (fun t => x t == 50) (trails (obj s3)) /\
   List.length (trails (obj s4)) = 3%nat /\
   Forall (fun t => x t == 75) (trails (obj s4))).
Proof.
  split.
  - rewrite (animate_obj s fs Hfs). reflexivity.
  - vm_compute. repeat split; repeat constructor.
Qed.

Lemma animate_easing_witness :
  followSpeed (config (obj (init (initial_state []) three_half))) = Some 0.5 /\
  trails (obj (animate (init (initial_state []) three_half))) =
  map (fun t => mkTrail (element t)
                  (x t + (mouseX (obj (init (initial_state []) three_half)) - x t) * 0.5)
                  (y t + (mouseY (obj (init (initial_state []) three_half)) - y t) * 0.5))
      (trails (obj (init (initial_state []) three_half))).
Proof.
  split; [reflexivity |].
  exact (proj1 (animate_easing (init (initial_state []) three_half) 0.5 eq_refl)).
Defined.

(** C4 (amended): with a pointer that stays still during the frame,
    [followSpeed] between 0 and 1 and coordinates of magnitude at most
    [2^1022], one pass of the loop of [animate] in binary64 arithmetic
    keeps every trail and its element, never increases a trail's distance
    to the pointer, leaves a trail on the pointer where it is, and moves
    no trail when [followSpeed] is 0. *)
Theorem animate64_distance_never_increases (mx my fs : Z) (ts : list trail64)
  (Hmx : is_double mx) (Hmy : is_double my) (Hsm : small64 mx /\ small64 my)
  (Hfs : (0 <= fs <= 2 ^ 1074)%Z)
  (Hts : Forall (fun t => is_double (x64 t) /\ is_double (y64 t) /\
                          small64 (x64 t) /\ small64 (y64 t)) ts) :
  List.length (animate64_trails mx my fs ts) = List.length ts /\
  forall i t, nth_error ts i = Some t ->
    exists t', nth_error (animate64_trails mx my fs ts) i = Some t' /\
      element64 t' = element64 t /\
      (dist2_64 mx my t' <= dist2_64 mx my t)%Z /\
      (dist2_64 mx my t = 0%Z -> t' = t) /\
      (fs = 0%Z -> t' = t).
Proof.
  split; [apply length_map |].
  intros i t Hi. unfold animate64_trails. rewrite nth_error_map, Hi. simpl.
  eexists; split; [reflexivity |].
  rewrite Forall_forall in Hts. destruct (Hts t (nth_error_In _ _ Hi)) as (Hx & Hy & _ & _).
  destruct t as [el x y]. simpl in *. unfold ease64, dist2_64. simpl.
  pose proof (coord64_toward x mx fs Hx Hmx Hfs) as Tx.
  pose proof (coord64_toward y my fs Hy Hmy Hfs) as Ty.
  split; [reflexivity |]. split; [| split].
  - apply Z.add_le_mono; apply sq_abs_le; assumption.
  - intros H0.
    assert (x = mx /\ y = my) as [-> ->] by nia.
    rewrite !coord64_still by assumption. reflexivity.
  - intros ->. rewrite !coord64_zero_speed by assumption. reflexivity.
Qed.

(** C4 fails as stated: the distance need not strictly decrease. With the
    default [followSpeed] 0.2 (the binary64 number nearest 0.2, within half
    a unit in the last place of it), a pointer at x = 100 and a trail at
    x = 100 - 2^-45, the step [dx * followSpeed] is below half a unit in
    the last place of the trail's x, so the sum rounds back to it: the
    trail stays 2^-45 px from the pointer, frame after frame. *)
Lemma animate64_stops_short :
  let fs := (7205759403792794 * 2 ^ 1019)%Z in
  let mx := (100 * 2 ^ 1074)%Z in
  let t := mkTrail64 0 (100 * 2 ^ 1074 - 2 ^ 1029)%Z 0%Z in
  (Z.abs (5 * fs - 2 ^ 1074) < 5 * 2 ^ 1018)%Z /\
  is_double fs /\ is_double mx /\ is_double (x64 t) /\
  animate64_trails mx 0 fs [t] = [t] /\ (0 < dist2_64 mx 0 t)%Z.
Proof.
  intros fs mx t. split; [vm_compute; reflexivity |].
  split; [exists 7205759403792794%Z, 1019%Z; split; [lia | split; [vm_compute; discriminate | reflexivity]] |].
  split; [exists 100%Z, 1074%Z; split; [lia | split; [vm_compute; discriminate | reflexivity]] |].
  split; [exists (100 * 2 ^ 45 - 1)%Z, 1029%Z; split; [lia | split; [vm_compute; discriminate | ]] |].
  { unfold t. simpl. ring. }
  split; vm_compute; reflexivity.
Qed.

Lemma animate64_distance_never_increases_witness :
  is_double (100 * 2 ^ 1074) /\
  (let ts := [mkTrail64 0 (100 * 2 ^ 1074 - 2 ^ 1029) 0] in
   List.length (animate64_trails (100 * 2 ^ 1074) 0 (7205759403792794 * 2 ^ 1019) ts) = List.length ts).
Proof.
  assert (Hd : is_double (100 * 2 ^ 1074)) by (exists 100%Z, 1074%Z; split; [lia | split; [vm_compute; discriminate | reflexivity]]).
  split; [exact Hd |]. intros ts.
  refine (proj1 (animate64_distance_never_increases (100 * 2 ^ 1074) 0 (7205759403792794 * 2 ^ 1019) ts
    Hd _ _ _ _)).
  - exists 0%Z, 0%Z. split; [lia | split; [lia | reflexivity]].
  - split; unfold small64; vm_compute; discriminate.
  - split; [lia | vm_compute; discriminate].
  - constructor; [| constructor]. simpl.
    split; [exists (100 * 2 ^ 45 - 1)%Z, 1029%Z; split; [lia | split; [vm_compute; discriminate | ring]] |].
    split; [exists 0%Z, 0%Z; split; [lia | split; [lia | reflexivity]] |].
    split; unfold small64; vm_compute; discriminate.
Defined.

(** C7: [destroy] is idempotent: in every state, [destroy(); destroy();]
    ends in the same state and the same outcome as one call; when the
    first call returns normally the second changes nothing and raises
    nothing. *)
Theorem destroy_idempotent (s : state) : destroy_twice s = destroy s.
Proof.
  unfold destroy_twice, destroy.
  destruct (isInitialized (obj s)) eqn:Hi; simpl.
  - destruct (remove_elements (trails (obj s)) (body (env s))); reflexivity.
  - rewrite Hi. reflexivity.
Qed.

(** C8: on a controller that is not initialized [updateConfig] returns
    without an exception and leaves the whole state unchanged. *)
Theorem updateConfig_uninitialized_noop (s : state) (newConfig : options)
  (H : isInitialized (obj s) = false) :
  updateConfig s newConfig = Ok s.
Proof. unfold updateConfig. rewrite H. reflexivity. Qed.

Lemma updateConfig_uninitialized_noop_witness :
  isInitialized (obj (initial_state [])) = false /\
  updateConfig (initial_state []) (only_length 4) = Ok (initial_state []).
Proof.
  split; [reflexivity |].
  exact (updateConfig_uninitialized_noop (initial_state []) (only_length 4) eq_refl).
Defined.

(** C9: [trackMouse] overwrites [mouseX]/[mouseY] with the event's
    coordinates and changes nothing else: trails, configuration,
    [maxTrails], [animationFrame], [isInitialized] and the page stay. *)
Theorem trackMouse_frame (s : state) (clientX clientY : Q) :
  let s' := trackMouse s clientX clientY in
  mouseX (obj s') = clientX /\ mouseY (obj s') = clientY /\
  trails (obj s') = trails (obj s) /\ config (obj s') = config (obj s) /\
  maxTrails (obj s') = maxTrails (obj s) /\
  animationFrame (obj s') = animationFrame (obj s) /\
  isInitialized (obj s') = isInitialized (obj s) /\ env s' = env s.
Proof. repeat split. Qed.

(** C1 (code bug): [updateConfig({trailLength: 0})] on an initialized
    controller with 10 trails leaves the 10 trails: the guard
    [newConfig.trailLength && ...] is false for 0. *)
Theorem updateConfig_zero_keeps_trails :
  let s := init (initial_state []) empty_options in
  isInitialized (obj s) = true /\ List.length (trails (obj s)) = 10%nat /\
  exists s', updateConfig s (only_length 0) = Ok s' /\
    List.length (trails (obj s')) = 10%nat /\ maxTrails (obj s') = Some 10%Z.
Proof.
  vm_compute.
  split; [reflexivity | split; [reflexivity |]].
  eexists. split; [reflexivity | split; reflexivity].
Qed.

(** C2 (code bug): after [init] and [destroy], the [mousemove] listener
    [init] registered is still registered ([destroy] removes a new bound
    function instead) and a later move still writes [mouseX]/[mouseY];
    no trail is left and no frame is pending. *)
Theorem destroy_keeps_mousemove_listener :
  let s1 := init (initial_state []) empty_options in
  exists s2, destroy s1 = Ok s2 /\
    isInitialized (obj s2) = false /\
    listeners (env s1) <> [] /\ listeners (env s2) = listeners (env s1) /\
    trails (obj s2) = [] /\ frame_queue (env s2) = [] /\
    mouseX (obj (step s2 (MouseMove 100 50))) = 100 /\
    mouseY (obj (step s2 (MouseMove 100 50))) = 50 /\
    trails (obj (step s2 (MouseMove 100 50))) = [].
Proof.
  vm_compute.
  eexists. split; [reflexivity |].
  repeat split; try reflexivity; discriminate.
Qed.

(** C5: with the missing keys taken from [defaultOptions] ([trailLength]
    10) and a non-negative [trailLength] k, [init] appends exactly k new
    trails, each at the pointer position at call time (which [init] does
    not change), and sets [maxTrails] to k; that position is (0,0) when no
    [mousemove] has happened since the script ran, whatever page it runs
    on and whatever other calls and events came before. *)
Theorem init_creates_trailLength_trails (s : state) (c : options) (k : Z)
  (Hk : trailLength (spread defaultOptions c) = Some k) (Hnn : (0 <= k)%Z) :
  let s' := init s c in
  (trailLength c = None -> k = 10%Z) /\
  maxTrails (obj s') = Some k /\
  isInitialized (obj s') = true /\
  List.length (trails (obj s')) = (List.length (trails (obj s)) + Z.to_nat k)%nat /\
  Z.of_nat (List.length (skipn (List.length (trails (obj s))) (trails (obj s')))) = k /\
  Forall (fun t => x t == mouseX (obj s) /\ y t == mouseY (obj s))
         (skipn (List.length (trails (obj s))) (trails (obj s'))) /\
  mouseX (obj s') = mouseX (obj s) /\ mouseY (obj s') = mouseY (obj s) /\
  (forall (page : list nat) (evs : list event),
     no_pointer_move evs -> s = run (initial_state page) evs ->
     (mouseX (obj s), mouseY (obj s)) = (0, 0)).
Proof.
  destruct (followSpeed_merged c) as [fs Hfs].
  destruct (init_obj s c fs Hfs) as (Ht & Hm & Hi & Hx & Hy).
  rewrite Hk in Hm, Ht.
  intros s'. unfold s'. rewrite Ht, Hm, Hi, Hx, Hy. cbn [loop_count].
  rewrite skipn_map_app.
  split.
  { intros Hc. rewrite trailLength_merged, Hc in Hk. congruence. }
  split; [reflexivity | split; [reflexivity | split]].
  { rewrite length_map, length_app, length_map, length_seq. reflexivity. }
  split.
  { rewrite !length_map, length_seq. apply Z2Nat.id. exact Hnn. }
  split.
  { rewrite Forall_map, Forall_map, Forall_forall. intros e _. apply ease_fixed. }
  split; [reflexivity | split; [reflexivity |]].
  intros page evs Hn ->. exact (run_mouse _ _ Hn).
Qed.

Lemma init_creates_trailLength_trails_witness :
  trailLength (spread defaultOptions three_half) = Some 3%Z /\ (0 <= 3)%Z /\
  maxTrails (obj (init (initial_state []) three_half)) = Some 3%Z.
Proof.
  split; [reflexivity | split; [lia |]].
  exact (proj1 (proj2 (init_creates_trailLength_trails (initial_state []) three_half 3
                         eq_refl ltac:(lia)))).
Defined.

(** C6: [trailSpeed] is merged but never read: two runs that start with
    [init] on configurations differing only in [trailSpeed] and then see
    the same events end with the same trails (positions included) and the
    same page; their states differ at most in [config.trailSpeed]. *)
Theorem trailSpeed_unused (s : state) (c : options) (v : option Q) (evs : list event) :
  trails (obj (run (init s c) evs)) =
    trails (obj (run (init s (with_trailSpeed c v)) evs)) /\
  env (run (init s c) evs) = env (run (init s (with_trailSpeed c v)) evs) /\
  erase (run (init s c) evs) = erase (run (init s (with_trailSpeed c v)) evs).
Proof.
  assert (H : erase (run (init s c) evs) = erase (run (init s (with_trailSpeed c v)) evs))
    by (apply run_erase; symmetry; apply init_trailSpeed).
  split; [| split; [| exact H]].
  - exact (f_equal (fun s => trails (obj s)) H).
  - exact (f_equal env H).
Qed.

(** C10: in every state reached from the page load by [init] (only on a
    controller that is not initialized), [trackMouse], frames,
    [updateConfig] and [destroy], with every supplied [trailLength] a
    non-negative integer, an initialized controller has
    [trails.length = maxTrails]. *)
Theorem trails_length_maxTrails (s : state)
  (Hr : reachable s) (Hi : isInitialized (obj s) = true) :
  maxTrails (obj s) = Some (Z.of_nat (List.length (trails (obj s)))).
Proof.
  destruct (reachable_inv s Hr) as (_ & I2 & _).
  rewrite (I2 Hi). unfold elems. rewrite length_map. reflexivity.
Qed.

Lemma trails_length_maxTrails_witness :
  let s := step (step (step (step (initial_state []) (Init empty_options))
                            (MouseMove 5 7)) Frame) (UpdateConfig (only_length 4)) in
  reachable s /\ isInitialized (obj s) = true /\ maxTrails (obj s) = Some 4%Z /\
  maxTrails (obj s) = Some (Z.of_nat (List.length (trails (obj s)))).
Proof.
  intros s.
  assert (Hr : reachable s).
  { apply reach_step; [| cbn [event_ok length_ok only_length trailLength]; lia].
    apply reach_step; [| exact I].
    apply reach_step; [| exact I].
    apply reach_step; [apply reach_start | split; [reflexivity | exact I]]. }
  assert (Hi : isInitialized (obj s) = true) by (vm_compute; reflexivity).
  split; [exact Hr | split; [exact Hi | split; [vm_compute; reflexivity |]]].
  exact (trails_length_maxTrails s Hr Hi).
Defined.

(** ** Further properties of the code *)

Lemma fold_track (l : list nat) (s : state) (cx cy : Q) :
  fold_left (fun s _ => trackMouse s cx cy) l s =
  match l with [] => s | _ :: _ => trackMouse s cx cy end.
Proof.
  revert s; induction l as [| a l IH]; intros s; [reflexivity |].
  simpl. rewrite IH. destruct l; reflexivity.
Qed.

Lemma same_frames_refl (s : state) : same_frames s s.
Proof. repeat split. Qed.

Lemma same_frames_trans (s1 s2 s3 : state) :
  same_frames s1 s2 -> same_frames s2 s3 -> same_frames s1 s3.
Proof. intros (A1 & A2 & A3) (B1 & B2 & B3). repeat split; congruence. Qed.

Lemma frames_transfer (s s' : state) : same_frames s s' -> frames_ok s -> frames_ok s'.
Proof.
  intros (H1 & H2 & H3) (F1 & F2). rewrite <- H3 in F1, F2. split.
  - intros Hi. destruct (F1 Hi) as (h & Hq & Ha). exists h. rewrite H1, H2. tauto.
  - intros Hi. rewrite H1. apply F2, Hi.
Qed.

Lemma create_trails_frames (n : nat) (s : state) : same_frames s (create_trails n s).
Proof.
  revert s; induction n as [| n IH]; intros s; simpl; [apply same_frames_refl |].
  eapply same_frames_trans; [| apply IH]. repeat split.
Qed.

Lemma remove_trails_frames (n : nat) (s : state) :
  same_frames s (state_of (remove_trails n s)).
Proof.
  revert s; induction n as [| n IH]; intros s; cbn [remove_trails]; [apply same_frames_refl |].
  destruct (pop (trails (obj s))) as [[rest t] |]; [| apply same_frames_refl].
  destruct (removeChild _ _) as [b |]; [| repeat split].
  eapply same_frames_trans; [| apply IH]. repeat split.
Qed.

Lemma adjust_trails_frames (s : state) (c : options) :
  same_frames s (state_of (adjust_trails s c)).
Proof.
  unfold adjust_trails.
  destruct (trailLength c) as [k |]; [| apply same_frames_refl].
  destruct (maxTrails (obj s)) as [m |].
  - destruct (negb (k =? 0)%Z && negb (k =? m)%Z); [| apply same_frames_refl].
    destruct (k >? m)%Z.
    + eapply same_frames_trans; [apply create_trails_frames | repeat split].
    + pose proof (remove_trails_frames (Z.to_nat (m - k)) s) as H2.
      destruct (remove_trails (Z.to_nat (m - k)) s) as [s' | e s']; simpl in *;
        [eapply same_frames_trans; [exact H2 | repeat split] | exact H2].
  - destruct (negb (k =? 0)%Z && true); [| apply same_frames_refl].
    repeat split.
Qed.

Lemma updateConfig_frames (s : state) (c : options) :
  same_frames s (state_of (updateConfig s c)).
Proof.
  unfold updateConfig. destruct (isInitialized (obj s)); [| apply same_frames_refl].
  simpl. eapply same_frames_trans; [| apply adjust_trails_frames]. repeat split.
Qed.

Lemma init_frames (s : state) (c : options) :
  frame_queue (env s) = [] ->
  exists h, frame_queue (env (init s c)) = [h] /\
            animationFrame (obj (init s c)) = Some h /\
            isInitialized (obj (init s c)) = true.
Proof.
  intros Hq. rewrite init_unfold. unfold init_after_merge. cbv zeta.
  set (s2 := create_trails _ (merged s c)).
  assert (Hq2 : frame_queue (env s2) = []).
  { destruct (create_trails_frames (loop_count (maxTrails (obj (merged s c)))) (merged s c))
      as (H1 & _ & _).
    unfold s2. rewrite H1. exact Hq. }
  exists (next_frame (env s2)).
  unfold animate. cbn. rewrite Hq2. repeat split.
Qed.

Lemma step_frames (s : state) (ev : event) :
  frames_ok s -> event_ok s ev -> frames_ok (step s ev).
Proof.
  intros [F1 F2] Hok. destruct ev as [c | cx cy | | c |]; cbn [step]; simpl in Hok.
  - destruct Hok as [Hi _].
    destruct (init_frames s c (F2 Hi)) as (h & Hq & Ha & Hi').
    split; [intros _; exists h; tauto | rewrite Hi'; discriminate].
  - unfold dispatch_mousemove. rewrite fold_track.
    destruct (listeners (env s)); split; assumption.
  - unfold frame. destruct (isInitialized (obj s)) eqn:Ei.
    + destruct (F1 eq_refl) as (h & Hq & _). rewrite Hq. simpl.
      split; [intros _; eexists; split; reflexivity | cbn; rewrite Ei; discriminate].
    + rewrite (F2 eq_refl). simpl.
      split; [cbn; rewrite Ei; discriminate | intros _; reflexivity].
  - apply (frames_transfer s); [apply updateConfig_frames | split; assumption].
  - unfold destroy. destruct (isInitialized (obj s)) eqn:Ei; simpl.
    + destruct (F1 eq_refl) as (h & Hq & Ha).
      destruct (remove_elements (trails (obj s)) (body (env s))) as [b | e b]; simpl.
      * split; [discriminate | intros _]. rewrite Hq, Ha. simpl.
        rewrite Nat.eqb_refl. reflexivity.
      * split; [intros _; exists h; tauto | intros Hf; simpl in Hf; congruence].
    + split; [intros Hf; simpl in Hf; congruence | intros _; apply F2; reflexivity].
Qed.

Lemma reachable_frames (s : state) : reachable s -> frames_ok s.
Proof.
  induction 1 as [page | s' ev Hr' IH Hok].
  - split; [discriminate | reflexivity].
  - apply step_frames; assumption.
Qed.

(** The animation loop: in every reachable state there is exactly one
    pending frame callback, the one [animationFrame] holds, while the
    controller is initialized, and none otherwise; so after [destroy] no
    frame callback is left. *)
Theorem frame_loop_single (s : state) (Hr : reachable s) :
  frames_ok s /\ frame_queue (env (step s Destroy)) = [].
Proof.
  pose proof reachable_frames as F.
  split; [exact (F s Hr) |].
  pose proof (F _ (reach_step s Destroy Hr I)) as [_ F2].
  destruct (destroy_ok s (reachable_inv s Hr)) as (s' & Hd & _).
  apply F2. cbn [step]. rewrite Hd. simpl.
  unfold destroy in Hd. destruct (isInitialized (obj s)) eqn:Ei; simpl in Hd.
  - destruct (remove_elements _ _); inversion Hd; reflexivity.
  - inversion Hd; subst. exact Ei.
Qed.

Lemma frame_loop_single_witness :
  let s := step (initial_state []) (Init three_half) in
  reachable s /\ frames_ok s.
Proof.
  intros s.
  assert (Hr : reachable s).
  { apply reach_step; [apply reach_start | split; [reflexivity | cbn; lia]]. }
  split; [exact Hr | exact (proj1 (frame_loop_single s Hr))].
Defined.

Lemma pop_some_inv {A : Type} (l rest : list A) (a : A) :
  pop l = Some (rest, a) -> l = rest ++ [a].
Proof.
  unfold pop. destruct (rev l) as [| b r] eqn:E; [discriminate |].
  intros H. injection H as <- <-.
  rewrite <- (rev_involutive l), E. reflexivity.
Qed.

Lemma remove_trails_firstn (n : nat) (s s' : state) :
  remove_trails n s = Ok s' ->
  (n <= List.length (trails (obj s)))%nat /\
  trails (obj s') = firstn (List.length (trails (obj s)) - n) (trails (obj s)).
Proof.
  revert s; induction n as [| n IH]; intros s H.
  - injection H as <-. rewrite Nat.sub_0_r, firstn_all. split; [lia | reflexivity].
  - cbn [remove_trails] in H.
    destruct (pop (trails (obj s))) as [[rest t] |] eqn:Ep; [| discriminate].
    apply pop_some_inv in Ep.
    destruct (removeChild _ _) as [b |]; [| discriminate].
    destruct (IH _ H) as [Hn Ht]. simpl in Hn, Ht.
    rewrite Ep, length_app. simpl. split; [lia |].
    rewrite Ht, firstn_app.
    replace (List.length rest + 1 - S n - List.length rest)%nat with O by lia.
    simpl. rewrite app_nil_r. f_equal. lia.
Qed.

(** [updateConfig] with a [trailLength] k >= 1 on an initialized
    controller: afterwards there are exactly k trails and [maxTrails] is k;
    shrinking keeps the first k trails (the last created go first),
    growing appends new trails at the pointer, after the existing ones. *)
Theorem updateConfig_resize (s : state) (c : options) (k : Z)
  (Hr : reachable s) (Hi : isInitialized (obj s) = true)
  (Hc : trailLength c = Some k) (Hk : (1 <= k)%Z) :
  exists s', updateConfig s c = Ok s' /\
    maxTrails (obj s') = Some k /\
    List.length (trails (obj s')) = Z.to_nat k /\
    ((Z.to_nat k <= List.length (trails (obj s)))%nat ->
       trails (obj s') = firstn (Z.to_nat k) (trails (obj s))) /\
    ((List.length (trails (obj s)) <= Z.to_nat k)%nat ->
       trails (obj s') =
         trails (obj s) ++
         map (fun e => mkTrail e (mouseX (obj s)) (mouseY (obj s)))
             (seq (next_node (env s)) (Z.to_nat k - List.length (trails (obj s))))).
Proof.
  destruct (reachable_inv s Hr) as (_ & I2 & I3).
  specialize (I2 Hi). unfold elems in I2, I3. rewrite length_map in I2.
  set (len := List.length (trails (obj s))) in *.
  unfold updateConfig. rewrite Hi. cbn [negb].
  set (s1 := restyle _).
  assert (Hm1 : maxTrails (obj s1) = Some (Z.of_nat len)) by exact I2.
  assert (Hc1 : trailLength (config (obj s1)) = Some k) by (simpl; rewrite Hc; reflexivity).
  assert (Hd1 : dom_ok s1) by exact I3.
  change (trails (obj s)) with (trails (obj s1)) in len |- *.
  change (mouseX (obj s)) with (mouseX (obj s1)).
  change (mouseY (obj s)) with (mouseY (obj s1)).
  change (next_node (env s)) with (next_node (env s1)).
  clearbody s1. clear I2 I3 Hi Hr.
  unfold adjust_trails. rewrite Hc, Hm1.
  assert (Hk0 : (k =? 0)%Z = false) by (apply Z.eqb_neq; lia).
  rewrite Hk0. cbn [negb andb].
  destruct (Z.eqb_spec k (Z.of_nat len)) as [Heq | Hne].
  - simpl. exists s1. split; [reflexivity |].
    rewrite Hm1, Heq, Nat2Z.id. split; [reflexivity | split; [reflexivity | split]].
    + intros _. symmetry. apply firstn_all2. fold len. lia.
    + intros _. rewrite Nat.sub_diag. simpl. rewrite app_nil_r. reflexivity.
  - simpl. rewrite Z.gtb_ltb. destruct (Z.ltb_spec (Z.of_nat len) k) as [Hlt | Hge].
    + eexists. split; [reflexivity |].
      cbn [set_obj obj with_maxTrails maxTrails trails with_trails].
      rewrite create_trails_obj. cbn [with_trails trails config]. rewrite Hc1.
      split; [reflexivity |].
      rewrite length_app, length_map, length_seq.
      split; [fold len; lia |]. split.
      * intros Hle. exfalso. fold len in Hle. lia.
      * intros _. fold len. do 3 f_equal. lia.
    + destruct (remove_trails_ok (Z.to_nat (Z.of_nat len - k)) s1 Hd1)
        as (s' & Hrm & _ & _ & _ & _ & Hcf).
      { unfold elems. rewrite length_map. fold len. lia. }
      destruct (remove_trails_firstn _ _ _ Hrm) as [Hn Ht].
      rewrite Hrm. eexists. split; [reflexivity |].
      cbn [set_obj obj with_maxTrails maxTrails trails].
      rewrite Hcf, Hc1. split; [reflexivity |].
      fold len in Hn, Ht. rewrite Ht.
      assert (E : (len - Z.to_nat (Z.of_nat len - k) = Z.to_nat k)%nat) by lia.
      rewrite E. split; [rewrite length_firstn; lia |]. split.
      * intros _. reflexivity.
      * intros Hle. exfalso. lia.
Qed.

Lemma updateConfig_resize_witness :
  let s := step (initial_state []) (Init empty_options) in
  reachable s /\ isInitialized (obj s) = true /\
  trailLength (only_length 4) = Some 4%Z /\ (1 <= 4)%Z /\
  exists s', updateConfig s (only_length 4) = Ok s' /\ maxTrails (obj s') = Some 4%Z.
Proof.
  intros s.
  assert (Hr : reachable s) by (apply reach_step; [apply reach_start | split; [reflexivity | exact I]]).
  assert (Hi : isInitialized (obj s) = true) by (vm_compute; reflexivity).
  split; [exact Hr | split; [exact Hi | split; [reflexivity | split; [lia |]]]].
  destruct (updateConfig_resize s (only_length 4) 4 Hr Hi eq_refl ltac:(lia)) as (s' & H1 & H2 & _).
  exists s'. split; assumption.
Defined.

Lemma remove_first_app_notin (e : nat) (l1 l2 : list nat) :
  ~ In e l1 -> remove_first e (l1 ++ l2) = l1 ++ remove_first e l2.
Proof.
  induction l1 as [| a l1 IH]; intros H; simpl; [reflexivity |].
  destruct (Nat.eqb_spec a e) as [-> | Hne]; [exfalso; apply H; left; reflexivity |].
  rewrite IH; [reflexivity | intros Hin; apply H; right; exact Hin].
Qed.

Lemma removeChild_some (b b' : list nat) (e : nat) :
  removeChild b e = Some b' -> b' = remove_first e b.
Proof. unfold removeChild. destruct (existsb _ _); congruence. Qed.

Lemma page_transfer (page : list nat) (s s' : state) :
  elems s' = elems s -> body (env s') = body (env s) -> page_ok page s -> page_ok page s'.
Proof. intros H1 H2. unfold page_ok. rewrite H1, H2. tauto. Qed.

Lemma create_trail_page (page : list nat) (s : state) :
  dom_ok s -> page_ok page s -> page_ok page (create_trail s).
Proof.
  intros Hd (Hb & Hp).
  destruct (create_trail_dom s Hd) as [_ He].
  destruct Hd as (_ & _ & Hlt).
  assert (Hfresh : ~ In (next_node (env s)) (body (env s))).
  { intros H. rewrite Forall_forall in Hlt. apply Hlt in H. lia. }
  unfold page_ok. rewrite He. split.
  - unfold create_trail; simpl. unfold appendChild.
    rewrite (remove_first_notin _ _ Hfresh), Hb, app_assoc. reflexivity.
  - apply Forall_app. split; [exact Hp |]. constructor; [| constructor].
    intros Hin. apply Hfresh. rewrite Hb. apply in_or_app. left. exact Hin.
Qed.

Lemma create_trails_page (page : list nat) (n : nat) (s : state) :
  dom_ok s -> page_ok page s -> page_ok page (create_trails n s).
Proof.
  revert s; induction n as [| n IH]; intros s Hd Hp; simpl; [exact Hp |].
  apply IH; [apply (create_trail_dom s Hd) | apply create_trail_page; assumption].
Qed.

Lemma remove_trails_page (page : list nat) (n : nat) (s s' : state) :
  NoDup (elems s) -> page_ok page s -> remove_trails n s = Ok s' -> page_ok page s'.
Proof.
  revert s; induction n as [| n IH]; intros s Hnd Hp H.
  - injection H as <-. exact Hp.
  - cbn [remove_trails] in H.
    destruct (pop (trails (obj s))) as [[rest t] |] eqn:Ep; [| discriminate].
    apply pop_some_inv in Ep.
    destruct (removeChild _ _) as [b |] eqn:Er; [| discriminate].
    apply removeChild_some in Er. simpl in Er.
    destruct Hp as (Hb & Hpg).
    unfold elems in Hnd, Hb, Hpg. rewrite Ep, map_app in Hnd, Hb, Hpg.
    apply Forall_app in Hpg as [Hpg Ht]. inversion Ht as [| ? ? Hte _]; subst.
    pose proof (NoDup_remove_2 _ [] _ Hnd) as Hnot. rewrite app_nil_r in Hnot.
    refine (IH _ _ _ H); [exact (NoDup_app_remove_r _ _ Hnd) |].
    split; [| exact Hpg]. simpl.
    rewrite Hb, (remove_first_app_notin _ _ _ Hte), (remove_first_app_notin _ _ _ Hnot).
    simpl. rewrite Nat.eqb_refl, app_nil_r. reflexivity.
Qed.

Lemma remove_elements_page (page : list nat) (ts : list trail) :
  NoDup (map element ts) -> Forall (fun e => ~ In e page) (map element ts) ->
  remove_elements ts (page ++ map element ts) = Ok page.
Proof.
  induction ts as [| t ts IH]; intros Hnd Hp; simpl; [rewrite app_nil_r; reflexivity |].
  inversion Hnd as [| ? ? Hnot Hnd']; subst.
  inversion Hp as [| ? ? Hte Hp']; subst.
  rewrite removeChild_in by (apply in_or_app; right; left; reflexivity).
  rewrite (remove_first_app_notin _ _ _ Hte). simpl. rewrite Nat.eqb_refl.
  apply IH; assumption.
Qed.

Lemma adjust_trails_page (page : list nat) (s s' : state) (c : options) :
  dom_ok s -> page_ok page s -> adjust_trails s c = Ok s' -> page_ok page s'.
Proof.
  intros Hd Hp. unfold adjust_trails.
  destruct (trailLength c) as [k |]; [| congruence].
  destruct (negb _ && _); [| congruence].
  destruct (maxTrails (obj s)) as [m |].
  - destruct (k >? m)%Z.
    + intros H. injection H as <-.
      apply (page_transfer page (create_trails (Z.to_nat (k - m)) s)); [reflexivity | reflexivity |].
      apply create_trails_page; assumption.
    + destruct (remove_trails _ s) as [s1 | e s1] eqn:Er; [| discriminate].
      intros H. injection H as <-.
      apply (page_transfer page s1); [reflexivity | reflexivity |].
      apply (remove_trails_page page (Z.to_nat (m - k)) s s1); [apply Hd | exact Hp | exact Er].
  - intros H. injection H as <-.
    apply (page_transfer page s); [reflexivity | reflexivity | exact Hp].
Qed.

Lemma updateConfig_page (page : list nat) (s s' : state) (c : options) :
  dom_ok s -> page_ok page s -> updateConfig s c = Ok s' -> page_ok page s'.
Proof.
  intros Hd Hp. unfold updateConfig.
  destruct (isInitialized (obj s)); simpl; [| congruence].
  apply adjust_trails_page.
  - apply (dom_ok_transfer s); [reflexivity | reflexivity | reflexivity | exact Hd].
  - apply (page_transfer page s); [reflexivity | reflexivity | exact Hp].
Qed.

Lemma destroy_page (page : list nat) (s s' : state) :
  dom_ok s -> page_ok page s -> destroy s = Ok s' -> page_ok page s'.
Proof.
  intros (Hnd & _ & _) (Hb & Hp). unfold destroy.
  destruct (isInitialized (obj s)); simpl; [| intros H; injection H as <-; split; assumption].
  unfold elems in Hb, Hnd, Hp. rewrite Hb, (remove_elements_page page _ Hnd Hp).
  intros H. injection H as <-. split; [| constructor].
  unfold elems; simpl. rewrite app_nil_r. reflexivity.
Qed.

Lemma init_page (page : list nat) (s : state) (c : options) :
  dom_ok s -> page_ok page s -> page_ok page (init s c).
Proof.
  intros Hd Hp. rewrite init_unfold.
  destruct (init_after_merge_dom (merged s c)) as (D1 & D2 & _).
  apply (page_transfer page _ _ D1 D2).
  apply create_trails_page.
  - apply (dom_ok_transfer s); [reflexivity | reflexivity | reflexivity | exact Hd].
  - apply (page_transfer page s); [reflexivity | reflexivity | exact Hp].
Qed.

Lemma step_page (page : list nat) (s : state) (ev : event) :
  inv s -> event_ok s ev -> page_ok page s -> page_ok page (step s ev).
Proof.
  intros Hinv Hok Hp. pose proof (proj2 (proj2 Hinv)) as Hd.
  destruct ev as [c | cx cy | | c |]; cbn [step].
  - apply init_page; assumption.
  - destruct (dispatch_shape s cx cy) as (A1 & _ & _ & A4 & _).
    exact (page_transfer page _ _ A1 A4 Hp).
  - destruct (frame_shape s) as (A1 & _ & _ & A4 & _).
    exact (page_transfer page _ _ A1 A4 Hp).
  - destruct (updateConfig_ok s c Hinv Hok) as (s' & Hr & _). rewrite Hr.
    exact (updateConfig_page page s s' c Hd Hp Hr).
  - destruct (destroy_ok s Hinv) as (s' & Hr & _). rewrite Hr.
    exact (destroy_page page s s' Hd Hp Hr).
Qed.

Lemma run_page (page : list nat) (evs : list event) (s : state) :
  reachable s -> page_ok page s -> runs_ok s evs ->
  reachable (run s evs) /\ page_ok page (run s evs).
Proof.
  revert s; induction evs as [| ev evs IH]; intros s Hr Hp Hok; [split; assumption |].
  destruct Hok as [Hev Hok]. unfold run; simpl. apply IH; [| | exact Hok].
  - apply reach_step; assumption.
  - apply step_page; [apply reachable_inv; exact Hr | exact Hev | exact Hp].
Qed.

(** Whatever valid sequence of calls and events runs on a page, the
    children of [body] are the page's own nodes, in their order, followed
    by the trail elements in the order of [Cursory.trails]: [Cursory] only
    appends its elements at the end and only removes its own; once it is
    not initialized (before [init], after [destroy]) [body] holds exactly
    the page's nodes again. *)
Theorem body_is_page_then_trails (page : list nat) (evs : list event)
  (Hok : runs_ok (initial_state page) evs) :
  let s := run (initial_state page) evs in
  body (env s) = page ++ map element (trails (obj s)) /\
  (isInitialized (obj s) = false -> body (env s) = page).
Proof.
  intros s.
  destruct (run_page page evs (initial_state page) (reach_start page)) as [Hr [Hb _]];
    [split; [simpl; rewrite app_nil_r; reflexivity | constructor] | exact Hok |].
  split; [exact Hb |].
  intros Hi. destruct (reachable_inv _ Hr) as (I1 & _ & _).
  fold s in Hb, I1. rewrite Hb, (I1 Hi), app_nil_r. reflexivity.
Qed.

Lemma body_is_page_then_trails_witness :
  runs_ok (initial_state [4; 7]%nat)
    [Init three_half; UpdateConfig (only_length 5); UpdateConfig (only_length 2); Destroy] /\
  body (env (run (initial_state [4; 7]%nat)
    [Init three_half; UpdateConfig (only_length 5); UpdateConfig (only_length 2); Destroy])) = [4; 7]%nat.
Proof.
  assert (Hok : runs_ok (initial_state [4; 7]%nat)
    [Init three_half; UpdateConfig (only_length 5); UpdateConfig (only_length 2); Destroy]).
  { cbn [runs_ok]. vm_compute. repeat split; discriminate. }
  split; [exact Hok |].
  apply (proj2 (body_is_page_then_trails _ _ Hok)). vm_compute. reflexivity.
Defined.

Lemma addEventListener_fresh (l : list nat) (f : nat) :
  Forall (fun g => g < f)%nat l -> addEventListener l f = l ++ [f].
Proof.
  intros H. unfold addEventListener.
  replace (existsb (Nat.eqb f) l) with false; [reflexivity |].
  symmetry. apply not_true_iff_false. intros Hex.
  apply existsb_exists in Hex as (g & Hg & Heq). apply Nat.eqb_eq in Heq. subst g.
  rewrite Forall_forall in H. apply H in Hg. lia.
Qed.

Lemma init_listeners (s : state) (c : options) :
  listeners_ok s ->
  listeners (env (init s c)) = listeners (env s) ++ [next_fn (env s)] /\
  listeners_ok (init s c).
Proof.
  intros Hl. rewrite init_unfold. unfold init_after_merge.
  destruct (create_trails_env (loop_count (maxTrails (obj (merged s c)))) (merged s c))
    as (_ & _ & E3 & E4).
  set (s2 := create_trails _ (merged s c)) in *.
  cbn [set_obj animate env listeners next_fn set_env with_listeners].
  rewrite E3, E4. cbn [merged set_obj env].
  rewrite (addEventListener_fresh _ _ Hl). split; [reflexivity |].
  unfold listeners_ok; simpl. try rewrite E3; try rewrite E4. simpl.
  apply Forall_app. split.
  - eapply Forall_impl; [| exact Hl]. intros a Ha. cbv beta in *. lia.
  - repeat constructor.
Qed.

Lemma destroy_listeners (s s' : state) :
  listeners_ok s -> destroy s = Ok s' ->
  listeners (env s') = listeners (env s) /\ listeners_ok s' /\
  isInitialized (obj s') = false.
Proof.
  intros Hl. unfold destroy.
  destruct (isInitialized (obj s)) eqn:Ei; simpl.
  - destruct (remove_elements _ _); [| discriminate].
    intros H. injection H as <-. cbn.
    assert (Hn : ~ In (next_fn (env s)) (listeners (env s))).
    { intros Hin. unfold listeners_ok in Hl. rewrite Forall_forall in Hl.
      apply Hl in Hin. lia. }
    unfold removeEventListener. rewrite (remove_first_notin _ _ Hn).
    split; [reflexivity | split; [| reflexivity]].
    unfold listeners_ok; simpl. eapply Forall_impl; [| exact Hl].
    intros g Hg. cbv beta in *. lia.
  - intros H. injection H as <-. repeat split; assumption.
Qed.

Lemma run_app (s : state) (l1 l2 : list event) : run s (l1 ++ l2) = run (run s l1) l2.
Proof. unfold run. apply fold_left_app. Qed.

Lemma cycles_listeners (c : options) (Hc : length_ok c) (n : nat) (s : state) :
  reachable s -> listeners_ok s -> isInitialized (obj s) = false ->
  let s' := run s (concat (repeat [Init c; Destroy] n)) in
  reachable s' /\ listeners_ok s' /\ isInitialized (obj s') = false /\
  List.length (listeners (env s')) = (List.length (listeners (env s)) + n)%nat.
Proof.
  revert s; induction n as [| n IH]; intros s Hr Hl Hi; cbv zeta.
  - change (run s (concat (repeat [Init c; Destroy] 0))) with s.
    repeat split; try assumption. lia.
  - change (concat (repeat [Init c; Destroy] (S n)))
      with ([Init c; Destroy] ++ concat (repeat [Init c; Destroy] n)).
    rewrite run_app.
    assert (Hr1 : reachable (step s (Init c))) by (apply reach_step; [exact Hr | split; assumption]).
    destruct (init_listeners s c Hl) as [L1 Hl1].
    destruct (destroy_ok _ (reachable_inv _ Hr1)) as (s2 & Hd & _).
    assert (Hr2 : reachable (step (step s (Init c)) Destroy)) by (apply reach_step; [exact Hr1 | exact I]).
    assert (E : run s [Init c; Destroy] = s2) by (unfold run; simpl; cbn [step] in Hd; rewrite Hd; reflexivity).
    cbn [step] in Hd. destruct (destroy_listeners _ _ Hl1 Hd) as (L2 & Hl2 & Hi2).
    rewrite E.
    assert (Hr2' : reachable s2) by (cbn [step] in Hr2; rewrite Hd in Hr2; exact Hr2).
    destruct (IH s2 Hr2' Hl2 Hi2) as (A1 & A2 & A3 & A4).
    repeat split; try assumption.
    rewrite A4, L2. cbn [step] in L1. rewrite L1, length_app. simpl. lia.
Qed.

(** [destroy] leaves the [mousemove] listener registered and the next
    [init] registers a new bound [trackMouse]: after n rounds of
    [init(c); destroy()] on a fresh page, n listeners are registered,
    while [Cursory] is not initialized and has no trails. *)
Theorem init_destroy_cycles_listeners (page : list nat) (c : options) (n : nat)
  (Hc : length_ok c) :
  let s := run (initial_state page) (concat (repeat [Init c; Destroy] n)) in
  List.length (listeners (env s)) = n /\
  isInitialized (obj s) = false /\ trails (obj s) = [].
Proof.
  intros s.
  destruct (cycles_listeners c Hc n (initial_state page) (reach_start page))
    as (Hr & _ & Hi & Hlen); [constructor | reflexivity |].
  fold s in Hr, Hi, Hlen.
  split; [exact Hlen |]. split; [exact Hi |].
  destruct (reachable_inv s Hr) as (I1 & _ & _).
  apply map_eq_nil with (f := element). exact (I1 Hi).
Qed.

Lemma init_destroy_cycles_listeners_witness :
  length_ok empty_options /\
  List.length (listeners (env (run (initial_state [])
    (concat (repeat [Init empty_options; Destroy] 3))))) = 3%nat.
Proof.
  assert (Hc : length_ok empty_options) by exact I.
  split; [exact Hc |].
  exact (proj1 (init_destroy_cycles_listeners [] empty_options 3 Hc)).
Defined.

(** *** The styles of the trail elements *)

Lemma fold_style_out (g : trail -> style -> style) (ts : list trail) (st : nat -> style) (e : nat) :
  ~ In e (map element ts) ->
  fold_left (fun st t => set_style st (element t) (g t (st (element t)))) ts st e = st e.
Proof.
  revert st; induction ts as [| a ts IH]; intros st H; simpl; [reflexivity |].
  simpl in H. rewrite IH by tauto. unfold set_style.
  destruct (Nat.eqb_spec e (element a)) as [-> | _]; [exfalso; tauto | reflexivity].
Qed.

Lemma fold_style_in (g : trail -> style -> style) (ts : list trail) (st : nat -> style) (t : trail) :
  NoDup (map element ts) -> In t ts ->
  fold_left (fun st t => set_style st (element t) (g t (st (element t)))) ts st (element t) =
  g t (st (element t)).
Proof.
  revert st; induction ts as [| a ts IH]; intros st Hnd Hin; [destruct Hin |].
  simpl in Hnd. inversion Hnd as [| ? ? Hnot Hnd']; subst. simpl.
  destruct Hin as [-> | Hin].
  - rewrite fold_style_out by exact Hnot. unfold set_style. rewrite Nat.eqb_refl. reflexivity.
  - rewrite (IH _ Hnd' Hin). unfold set_style.
    destruct (Nat.eqb_spec (element t) (element a)) as [He | _]; [| reflexivity].
    exfalso. apply Hnot. rewrite <- He. apply in_map, Hin.
Qed.

Lemma styles_transfer (s s' : state) :
  trails (obj s') = trails (obj s) -> config (obj s') = config (obj s) ->
  styles (env s') = styles (env s) -> styles_ok s -> styles_ok s'.
Proof. intros H1 H2 H3. unfold styles_ok. rewrite H1, H2, H3. tauto. Qed.

Lemma write_transforms_look (c : options) (ts : list trail) (st : nat -> style) :
  NoDup (map element ts) ->
  Forall (fun t => forall a b, with_transform (st (element t)) (a, b) = trail_style c a b) ts ->
  Forall (fun t => write_transforms ts st (element t) = trail_look c t) ts.
Proof.
  intros Hnd H. rewrite Forall_forall in *. intros t Ht.
  unfold write_transforms.
  rewrite (fold_style_in (fun t v => with_transform v (x t, y t)) ts st t Hnd Ht).
  apply H, Ht.
Qed.

Lemma animate_styles (s : state) :
  dom_ok s -> styles_ok s -> styles_ok (animate s).
Proof.
  intros (Hnd & _ & _) Hs. unfold styles_ok, animate in *. cbn.
  unfold elems in Hnd.
  destruct (followSpeed (config (obj s))) as [fs |].
  - apply write_transforms_look.
    + rewrite map_map. exact Hnd.
    + apply Forall_map. eapply Forall_impl; [| exact Hs].
      intros t Ht a b. cbn beta. simpl. rewrite Ht. reflexivity.
  - apply write_transforms_look; [exact Hnd |].
    eapply Forall_impl; [| exact Hs]. intros t Ht a b. rewrite Ht. reflexivity.
Qed.

Lemma fold_animate_styles {A : Type} (l : list A) (s : state) :
  dom_ok s -> styles_ok s -> styles_ok (fold_left (fun s _ => animate s) l s).
Proof.
  revert s; induction l as [| a l IH]; intros s Hd Hs; simpl; [exact Hs |].
  apply IH; [| apply animate_styles; assumption].
  destruct (animate_shape s) as (A1 & _ & _ & A4 & A5).
  exact (dom_ok_transfer _ _ A1 A4 A5 Hd).
Qed.

Lemma create_trail_styles (s : state) :
  dom_ok s -> styles_ok s -> styles_ok (create_trail s).
Proof.
  intros (_ & Hin & Hlt) Hs.
  assert (Hfresh : ~ In (next_node (env s)) (elems s)).
  { intros H. rewrite Forall_forall in Hin, Hlt. apply Hin, Hlt in H. lia. }
  unfold styles_ok, create_trail in *. cbn. apply Forall_app. split.
  - rewrite Forall_forall in *. intros t Ht. unfold set_style.
    destruct (Nat.eqb_spec (element t) (next_node (env s))) as [He | _].
    + exfalso. apply Hfresh. rewrite <- He. apply in_map, Ht.
    + apply Hs, Ht.
  - constructor; [| constructor]. unfold set_style. cbn. rewrite Nat.eqb_refl. reflexivity.
Qed.

Lemma create_trails_styles (n : nat) (s : state) :
  dom_ok s -> styles_ok s -> styles_ok (create_trails n s).
Proof.
  revert s; induction n as [| n IH]; intros s Hd Hs; simpl; [exact Hs |].
  apply IH; [apply (create_trail_dom s Hd) | apply create_trail_styles; assumption].
Qed.

Lemma restyle_styles (s : state) (c0 : options) :
  NoDup (elems s) ->
  Forall (fun t => styles (env s) (element t) = trail_look c0 t) (trails (obj s)) ->
  styles_ok (restyle s).
Proof.
  intros Hnd Hs. unfold styles_ok, restyle. cbn.
  rewrite Forall_forall in *. intros t Ht.
  rewrite (fold_style_in (fun t v => with_look v (config (obj s))) _ _ t Hnd Ht).
  cbv beta. rewrite (Hs t Ht). reflexivity.
Qed.

Lemma remove_trails_styles (n : nat) (s s' : state) :
  remove_trails n s = Ok s' -> styles_ok s -> styles_ok s'.
Proof.
  revert s; induction n as [| n IH]; intros s H Hs.
  - injection H as <-. exact Hs.
  - cbn [remove_trails] in H.
    destruct (pop (trails (obj s))) as [[rest t] |] eqn:Ep; [| discriminate].
    apply pop_some_inv in Ep.
    destruct (removeChild _ _) as [b |]; [| discriminate].
    apply (IH _ H). unfold styles_ok in *. rewrite Ep in Hs.
    apply Forall_app in Hs as [Hs _]. exact Hs.
Qed.

Lemma adjust_trails_styles (s s' : state) (c : options) :
  dom_ok s -> styles_ok s -> adjust_trails s c = Ok s' -> styles_ok s'.
Proof.
  intros Hd Hs. unfold adjust_trails.
  destruct (trailLength c) as [k |]; [| congruence].
  destruct (negb _ && _); [| congruence].
  destruct (maxTrails (obj s)) as [m |].
  - destruct (k >? m)%Z.
    + intros H. injection H as <-.
      apply (styles_transfer (create_trails (Z.to_nat (k - m)) s)); try reflexivity.
      apply create_trails_styles; assumption.
    + destruct (remove_trails _ s) as [s1 | e s1] eqn:Er; [| discriminate].
      intros H. injection H as <-.
      apply (styles_transfer s1); try reflexivity.
      exact (remove_trails_styles _ _ _ Er Hs).
  - intros H. injection H as <-. exact Hs.
Qed.

Lemma updateConfig_styles (s s' : state) (c : options) :
  dom_ok s -> styles_ok s -> updateConfig s c = Ok s' -> styles_ok s'.
Proof.
  intros Hd Hs. unfold updateConfig.
  destruct (isInitialized (obj s)); simpl; [| congruence].
  apply adjust_trails_styles.
  - apply (dom_ok_transfer s); [reflexivity | reflexivity | reflexivity | exact Hd].
  - apply (restyle_styles _ (config (obj s))); [apply Hd | exact Hs].
Qed.

Lemma destroy_styles (s s' : state) :
  styles_ok s -> destroy s = Ok s' -> styles_ok s'.
Proof.
  intros Hs. unfold destroy.
  destruct (isInitialized (obj s)); simpl; [| congruence].
  destruct (remove_elements _ _); [| discriminate].
  intros H. injection H as <-. constructor.
Qed.

Lemma init_styles (s : state) (c : options) :
  dom_ok s -> trails (obj s) = [] -> styles_ok (init s c).
Proof.
  intros Hd Ht. rewrite init_unfold. unfold init_after_merge.
  set (s2 := create_trails _ (merged s c)).
  assert (Hd2 : dom_ok s2).
  { apply create_trails_dom.
    apply (dom_ok_transfer s); [reflexivity | reflexivity | reflexivity | exact Hd]. }
  assert (Hs2 : styles_ok s2).
  { apply create_trails_styles.
    - apply (dom_ok_transfer s); [reflexivity | reflexivity | reflexivity | exact Hd].
    - unfold styles_ok. simpl. rewrite Ht. constructor. }
  set (s3 := set_env s2 _).
  apply (styles_transfer (animate s3)); try reflexivity.
  apply animate_styles.
  - apply (dom_ok_transfer s2); [reflexivity | reflexivity | reflexivity | exact Hd2].
  - apply (styles_transfer s2); [reflexivity | reflexivity | reflexivity | exact Hs2].
Qed.

Lemma step_styles (s : state) (ev : event) :
  inv s -> event_ok s ev -> styles_ok s -> styles_ok (step s ev).
Proof.
  intros Hinv Hok Hs. pose proof (proj2 (proj2 Hinv)) as Hd.
  destruct ev as [c | cx cy | | c |]; cbn [step].
  - apply init_styles; [exact Hd |].
    destruct Hok as [Hi _]. apply map_eq_nil with (f := element).
    exact (proj1 Hinv Hi).
  - unfold dispatch_mousemove. rewrite fold_track.
    destruct (listeners (env s)); [exact Hs |].
    apply (styles_transfer s); [reflexivity | reflexivity | reflexivity | exact Hs].
  - unfold frame. apply fold_animate_styles.
    + apply (dom_ok_transfer s); [reflexivity | reflexivity | reflexivity | exact Hd].
    + apply (styles_transfer s); [reflexivity | reflexivity | reflexivity | exact Hs].
  - destruct (updateConfig_ok s c Hinv Hok) as (s' & Hr & _). rewrite Hr.
    exact (updateConfig_styles s s' c Hd Hs Hr).
  - destruct (destroy_ok s Hinv) as (s' & Hr & _). rewrite Hr.
    exact (destroy_styles s s' Hs Hr).
Qed.

Lemma reachable_styles (s : state) : reachable s -> styles_ok s.
Proof.
  induction 1 as [page | s ev Hr IH Hok].
  - constructor.
  - apply step_styles; [apply reachable_inv | |]; assumption.
Qed.

(** On every state the program reaches, the element of each trail is
    translated to the trail's stored position, with [position: fixed],
    [pointer-events: none] and [border-radius: 50%]: new trails are placed
    at the pointer where they start, every animation step writes the
    position it computes, and neither [updateConfig] nor the removal of
    other trails touches these properties. These assignments are always
    valid CSS, so the element carries them. *)
Theorem trail_elements_at_trail_position (s : state) (Hr : reachable s) :
  Forall (fun t => transform (styles (env s) (element t)) = Some (x t, y t) /\
                   position (styles (env s) (element t)) = Some ("fixed"%string) /\
                   pointerEvents (styles (env s) (element t)) = Some ("none"%string) /\
                   borderRadius (styles (env s) (element t)) = Some ("50%"%string))
         (trails (obj s)).
Proof.
  eapply Forall_impl; [| exact (reachable_styles s Hr)].
  intros t Ht. rewrite Ht. repeat split.
Qed.

Lemma trail_elements_at_trail_position_witness :
  let s := step (step (step (step (initial_state [])
             (Init three_half)) (MouseMove 100 0)) Frame)
             (UpdateConfig (mkOptions (Some "red"%string) (Some 5%Z) None (Some 4) None None)) in
  reachable s /\
  Forall (fun t => transform (styles (env s) (element t)) = Some (x t, y t)) (trails (obj s)).
Proof.
  intros s.
  assert (Hr : reachable s).
  { apply reach_step; [| unfold event_ok, length_ok; simpl; lia].
    apply reach_step; [| exact I].
    apply reach_step; [| exact I].
    apply reach_step; [apply reach_start | split; [reflexivity | unfold length_ok; simpl; lia]]. }
  split; [exact Hr |].
  eapply Forall_impl; [| exact (trail_elements_at_trail_position s Hr)].
  intros t Ht. apply Ht.
Defined.

(** *** [init] has no guard *)

Lemma init_queue (s : state) (c : options) :
  exists h, frame_queue (env (init s c)) = frame_queue (env s) ++ [h].
Proof.
  rewrite init_unfold. unfold init_after_merge. cbv zeta.
  set (s2 := create_trails _ (merged s c)).
  assert (Hq2 : frame_queue (env s2) = frame_queue (env s)).
  { destruct (create_trails_frames (loop_count (maxTrails (obj (merged s c)))) (merged s c))
      as (H1 & _ & _).
    unfold s2. rewrite H1. reflexivity. }
  exists (next_frame (env s2)).
  unfold animate. cbn. rewrite Hq2. reflexivity.
Qed.

Lemma init_trails_length (s : state) (c : options) :
  List.length (trails (obj (init s c))) =
  (List.length (trails (obj s)) + loop_count (trailLength (spread defaultOptions c)))%nat /\
  maxTrails (obj (init s c)) = trailLength (spread defaultOptions c).
Proof.
  destruct (followSpeed_merged c) as [fs Hfs].
  destruct (init_obj s c fs Hfs) as (Ht & Hm & _).
  rewrite Ht, Hm, length_map, length_app, length_map, length_seq. split; reflexivity.
Qed.

(** [init] does not look at [isInitialized]: a second [init(c)] adds
    another set of trails, leaves [maxTrails] at the configured length
    (so it no longer counts the trails), schedules a second animation
    loop and registers a second [mousemove] listener. *)
Theorem init_twice_doubles (page : list nat) (c : options) :
  let k := loop_count (trailLength (spread defaultOptions c)) in
  let s := run (initial_state page) [Init c; Init c] in
  List.length (trails (obj s)) = (2 * k)%nat /\
  maxTrails (obj s) = trailLength (spread defaultOptions c) /\
  List.length (frame_queue (env s)) = 2%nat /\
  List.length (listeners (env s)) = 2%nat.
Proof.
  intros k s.
  set (s1 := init (initial_state page) c).
  change s with (init s1 c).
  destruct (init_trails_length s1 c) as [L2 M2].
  destruct (init_trails_length (initial_state page) c) as [L1 _].
  destruct (init_queue s1 c) as [h2 Q2].
  destruct (init_queue (initial_state page) c) as [h1 Q1].
  assert (Hl0 : listeners_ok (initial_state page)) by constructor.
  destruct (init_listeners (initial_state page) c Hl0) as [N1 Hl1].
  destruct (init_listeners s1 c Hl1) as [N2 _].
  fold s1 in L1, Q1, N1.
  split; [rewrite L2, L1; unfold k; simpl; lia |].
  split; [exact M2 |].
  split; [rewrite Q2, Q1; reflexivity |].
  rewrite N2, N1. reflexivity.
Qed.

(** [updateConfig] whose [trailLength] is absent, [0] or the current
    [maxTrails] neither adds nor removes a trail: the trails, [maxTrails]
    and the children of [body] stay as they are, and on an initialized
    controller the new keys are merged into [config]. *)
Theorem updateConfig_without_resize (s : state) (c : options)
  (Hc : match trailLength c with
        | None => True
        | Some k => k = 0%Z \/ maxTrails (obj s) = Some k
        end) :
  exists s', updateConfig s c = Ok s' /\
    trails (obj s') = trails (obj s) /\ maxTrails (obj s') = maxTrails (obj s) /\
    body (env s') = body (env s) /\
    config (obj s') = (if isInitialized (obj s) then spread (config (obj s)) c
                       else config (obj s)).
Proof.
  unfold updateConfig. destruct (isInitialized (obj s)) eqn:Ei; cbn [negb].
  - unfold adjust_trails. destruct (trailLength c) as [k |] eqn:Ek.
    + assert (Hg : negb (k =? 0)%Z &&
                   match maxTrails (obj s) with Some m => negb (k =? m)%Z | None => true end
                   = false).
      { destruct Hc as [-> | ->]; [reflexivity | rewrite Z.eqb_refl, andb_false_r; reflexivity]. }
      cbn [restyle set_env set_obj obj]. cbn [maxTrails with_config].
      rewrite Hg. eexists. split; [reflexivity |]. repeat split.
    + eexists. split; [reflexivity |]. repeat split.
  - eexists. split; [reflexivity |]. repeat split.
Qed.

Lemma updateConfig_without_resize_witness :
  let s := step (initial_state []) (Init empty_options) in
  let c := mkOptions None (Some 10%Z) None (Some 4) None None in
  (match trailLength c with
   | None => True
   | Some k => k = 0%Z \/ maxTrails (obj s) = Some k
   end) /\
  exists s', updateConfig s c = Ok s' /\ List.length (trails (obj s')) = 10%nat.
Proof.
  intros s c.
  assert (Hc : match trailLength c with
               | None => True
               | Some k => k = 0%Z \/ maxTrails (obj s) = Some k
               end) by (right; vm_compute; reflexivity).
  split; [exact Hc |].
  destruct (updateConfig_without_resize s c Hc) as (s' & H1 & H2 & _).
  exists s'. split; [exact H1 |]. rewrite H2. vm_compute. reflexivity.
Defined.

(** *** [initializeCursory] *)

Lemma init_config (s : state) (c : options) :
  config (obj (init s c)) = spread defaultOptions c.
Proof.
  rewrite init_unfold.
  transitivity (config (obj (create_trails (loop_count (maxTrails (obj (merged s c)))) (merged s c))));
    [reflexivity | rewrite create_trails_obj; reflexivity].
Qed.

(** [initializeCursory()] without an argument takes [{}]: [config] is
    [defaultOptions] itself, [maxTrails] is 10, and ten new trails are
    added, all at the pointer position after the first animation step. *)
Theorem initializeCursory_no_argument (s : state) :
  let s' := initializeCursory s None in
  config (obj s') = defaultOptions /\ maxTrails (obj s') = Some 10%Z /\
  isInitialized (obj s') = true /\
  List.length (trails (obj s')) = (List.length (trails (obj s)) + 10)%nat /\
  Forall (fun t => x t == mouseX (obj s) /\ y t == mouseY (obj s))
         (skipn (List.length (trails (obj s))) (trails (obj s'))).
Proof.
  intros s'. unfold s', initializeCursory.
  destruct (followSpeed_merged empty_options) as [fs Hfs].
  destruct (init_obj s empty_options fs Hfs) as (Ht & Hm & Hi & _ & _).
  split; [rewrite init_config; reflexivity |].
  split; [rewrite Hm; reflexivity |].
  split; [exact Hi |].
  rewrite Ht. split.
  - rewrite length_map, length_app, length_map, length_seq. reflexivity.
  - rewrite skipn_map_app, map_map. apply Forall_map, Forall_forall.
    intros t _. apply ease_fixed.
Qed.

(** *** A negative [trailLength] in [updateConfig] *)

Lemma remove_trails_past_end (n : nat) (s : state) :
  dom_ok s -> (List.length (trails (obj s)) < n)%nat ->
  exists s', remove_trails n s = Throw TypeError s' /\ trails (obj s') = [] /\
    maxTrails (obj s') = maxTrails (obj s) /\
    isInitialized (obj s') = isInitialized (obj s) /\ config (obj s') = config (obj s).
Proof.
  revert s; induction n as [| n IH]; intros s Hs Hn; [lia |].
  destruct (trails (obj s)) as [| t0 ts0] eqn:Etr.
  - exists s. cbn [remove_trails]. rewrite Etr. split; [reflexivity |]. repeat split.
  - assert (Hne : trails (obj s) <> []) by (rewrite Etr; discriminate).
    rewrite <- Etr in Hn. clear t0 ts0 Etr.
    destruct (pop_last _ Hne) as (rest & t & Hpop & Heq).
    destruct Hs as (Hnd & Hin & Hlt).
    unfold elems in Hnd, Hin. rewrite Heq, map_app in Hnd, Hin. rewrite Heq in Hn.
    rewrite length_app in Hn. simpl in Hn.
    apply Forall_app in Hin as [Hin Ht]. inversion Ht as [| ? ? Het _]; subst.
    pose proof (NoDup_remove_2 _ [] _ Hnd) as Hnot. rewrite app_nil_r in Hnot.
    cbn [remove_trails]. rewrite Hpop. simpl. rewrite (removeChild_in _ _ Het).
    set (s2 := set_env (set_obj s (with_trails (obj s) rest))
                 (with_body (env (set_obj s (with_trails (obj s) rest)))
                            (remove_first (element t) (body (env s))))).
    assert (Hd2 : dom_ok s2).
    { split; [| split].
      - eapply NoDup_app_remove_r. exact Hnd.
      - rewrite Forall_forall in *. intros e He. simpl.
        apply remove_first_keeps; [intros ->; exact (Hnot He) | apply Hin, He].
      - eapply Forall_sub; [| exact Hlt]. intros a. apply remove_first_sub. }
    destruct (IH s2 Hd2) as (s' & Hr & Ht' & Hm & Hi & Hc); [simpl; lia |].
    exists s'. split; [exact Hr |]. split; [exact Ht' |].
    rewrite Hm, Hi, Hc. repeat split.
Qed.

(** [updateConfig({trailLength: k})] with k < 0 on an initialized
    controller: [k > maxTrails] is false, so the removing loop runs
    [maxTrails - k] times, more than there are trails; once the array is
    empty, [this.trails.pop().element] throws a [TypeError]. All trails are
    gone by then and [maxTrails] keeps its old value. *)
Theorem updateConfig_negative_length_throws (s : state) (k : Z)
  (Hr : reachable s) (Hi : isInitialized (obj s) = true) (Hk : (k < 0)%Z) :
  exists s', updateConfig s (only_length k) = Throw TypeError s' /\
    trails (obj s') = [] /\ maxTrails (obj s') = maxTrails (obj s) /\
    isInitialized (obj s') = true /\ trailLength (config (obj s')) = Some k.
Proof.
  destruct (reachable_inv s Hr) as (_ & I2 & I3).
  specialize (I2 Hi). unfold elems in I2, I3. rewrite length_map in I2.
  set (len := List.length (trails (obj s))) in *.
  unfold updateConfig. rewrite Hi. cbn [negb].
  set (s1 := restyle _).
  assert (Hm1 : maxTrails (obj s1) = Some (Z.of_nat len)) by exact I2.
  assert (Hc1 : trailLength (config (obj s1)) = Some k) by reflexivity.
  assert (Hi1 : isInitialized (obj s1) = true) by exact Hi.
  assert (Hd1 : dom_ok s1) by exact I3.
  assert (Hl1 : List.length (trails (obj s1)) = len) by reflexivity.
  rewrite I2. clearbody s1. clear I2 I3 Hr.
  unfold adjust_trails. cbn [trailLength only_length]. rewrite Hm1.
  assert (E1 : (k =? 0)%Z = false) by (apply Z.eqb_neq; lia).
  assert (E2 : (k =? Z.of_nat len)%Z = false) by (apply Z.eqb_neq; lia).
  assert (E3 : (k >? Z.of_nat len)%Z = false) by (rewrite Z.gtb_ltb; apply Z.ltb_ge; lia).
  rewrite E1, E2, E3. cbn [negb andb].
  destruct (remove_trails_past_end (Z.to_nat (Z.of_nat len - k)) s1 Hd1)
    as (s' & Hrm & Ht & Hm & Hi' & Hc); [rewrite Hl1; lia |].
  rewrite Hrm. exists s'. split; [reflexivity |].
  rewrite Ht, Hm, Hm1, Hi', Hi1, Hc, Hc1. repeat split.
Qed.

Lemma updateConfig_negative_length_throws_witness :
  let s := step (initial_state []) (Init empty_options) in
  reachable s /\ isInitialized (obj s) = true /\ (-1 < 0)%Z /\
  exists s', updateConfig s (only_length (-1)) = Throw TypeError s' /\ trails (obj s') = [].
Proof.
  intros s.
  assert (Hr : reachable s) by (apply reach_step; [apply reach_start | split; [reflexivity | exact I]]).
  assert (Hi : isInitialized (obj s) = true) by (vm_compute; reflexivity).
  split; [exact Hr | split; [exact Hi | split; [lia |]]].
  destruct (updateConfig_negative_length_throws s (-1) Hr Hi ltac:(lia)) as (s' & H1 & H2 & _).
  exists s'. split; assumption.
Defined.

(** *** No exception on valid calls *)

(** On every state the program reaches, [destroy] and an [updateConfig]
    whose [trailLength] (if any) is non-negative never throw: the [pop] of
    the removing loop always finds a trail, and every [removeChild] finds
    its element among the children of [body]. *)
Theorem valid_calls_never_throw (s : state) (c : options)
  (Hr : reachable s) (Hc : length_ok c) :
  (exists s', updateConfig s c = Ok s') /\ (exists s', destroy s = Ok s').
Proof.
  pose proof (reachable_inv s Hr) as Hinv.
  destruct (updateConfig_ok s c Hinv Hc) as (s1 & H1 & _).
  destruct (destroy_ok s Hinv) as (s2 & H2 & _).
  split; [exists s1; exact H1 | exists s2; exact H2].
Qed.

Lemma valid_calls_never_throw_witness :
  let s := step (step (initial_state [3%nat]) (Init three_half)) (UpdateConfig (only_length 7)) in
  reachable s /\ length_ok (only_length 1) /\
  (exists s', updateConfig s (only_length 1) = Ok s') /\ (exists s', destroy s = Ok s').
Proof.
  intros s.
  assert (Hc7 : length_ok (only_length 7)) by (unfold length_ok; simpl; lia).
  assert (Hc1 : length_ok (only_length 1)) by (unfold length_ok; simpl; lia).
  assert (Hr : reachable s).
  { apply reach_step; [| exact Hc7].
    apply reach_step; [apply reach_start | split; [reflexivity | unfold length_ok; simpl; lia]]. }
  split; [exact Hr | split; [exact Hc1 |]].
  exact (valid_calls_never_throw s (only_length 1) Hr Hc1).
Defined.
